(** * sklearn_pandas.dataframe_mapper : a shallow embedding and its properties

    The development follows [sklearn_pandas/dataframe_mapper.py].
    Python objects are mutated in place; here every operation that can
    mutate an object returns the object's new value next to its outcome,
    and an outcome is either a value or the exception that was raised. *)

From Stdlib Require Import String.
From Stdlib Require Import List ZArith Arith Bool Lia.
Import ListNotations.
Open Scope string_scope.
Open Scope list_scope.
Open Scope nat_scope.

Set Implicit Arguments.
Set Warnings "-register-all".

(** ** Exceptions and outcomes *)

Inductive exn : Type :=
| ValueError (msg : string)
| AssertionError
| AttributeError (name : string)
| TypeError
| KeyError (key : string)
| IndexError
| OtherError (msg : string).

Inductive result (A : Type) : Type :=
| Ok (v : A)
| Raise (e : exn).

Arguments Ok {A} v.
Arguments Raise {A} e.

Definition bind {A B} (r : result A) (k : A -> result B) : result B :=
  match r with
  | Ok v => k v
  | Raise e => Raise e
  end.

Notation "x <- r ;; k" := (bind r (fun x => k))
  (at level 61, r at next level, right associativity).

Definition raised {A} (r : result A) : bool :=
  match r with Ok _ => false | Raise _ => true end.

(** An attribute of a Python object is either missing from the object's
    dictionary or bound to a value. *)
Inductive attr (A : Type) : Type :=
| Absent
| Present (v : A).

Arguments Absent {A}.
Arguments Present {A} v.

Definition getattr {A} (name : string) (a : attr A) : result A :=
  match a with
  | Present v => Ok v
  | Absent => Raise (AttributeError name)
  end.

(** ** numpy arrays and scipy sparse matrices

    A numpy array is its shape and its elements in row-major order.  A
    scipy sparse matrix always has two dimensions; its compressed storage is
    abstracted to the row-major list of its entries, the representation tag
    is what the mapper inspects.  Dimensions are unbounded naturals. *)

Inductive pyarray : Type :=
| NdArray (shape : list nat) (data : list Z)
| SpMatrix (nrows ncols : nat) (data : list Z).

(** [fea.shape] *)
Definition shape (a : pyarray) : list nat :=
  match a with
  | NdArray s _ => s
  | SpMatrix r c _ => [r; c]
  end.

Definition elements (a : pyarray) : list Z :=
  match a with
  | NdArray _ d => d
  | SpMatrix _ _ d => d
  end.

Definition ndim (a : pyarray) : nat := length (shape a).

(** [sparse.issparse(fea)] *)
Definition issparse (a : pyarray) : bool :=
  match a with
  | NdArray _ _ => false
  | SpMatrix _ _ _ => true
  end.

Definition size_of (s : list nat) : nat := fold_right Nat.mul 1 s.

(** The buffer holds exactly the elements the shape announces. *)
Definition well_shaped (a : pyarray) : bool :=
  length (elements a) =? size_of (shape a).

(** [a[i]] of a 1-d array and [a[i, j]] of a 2-d array or sparse matrix. *)
Definition item1 (a : pyarray) (i : nat) : Z := nth i (elements a) 0%Z.

Definition item2 (a : pyarray) (i j : nat) : Z :=
  match shape a with
  | [_; c] => nth (i * c + j) (elements a) 0%Z
  | _ => 0%Z
  end.

(** [np.array([fea])] : one more leading axis of length one. *)
Definition np_array_singleton (a : pyarray) : pyarray :=
  NdArray (1 :: shape a) (elements a).

(** [a.T] of a 2-d array: entry [(j, i)] of the result is entry [(i, j)] of
    [a].  The mapper transposes 2-d arrays only; other ranks are returned
    as they are. *)
Definition np_T (a : pyarray) : pyarray :=
  match a with
  | NdArray [r; c] d =>
      NdArray [c; r]
        (flat_map (fun j => map (fun i => nth (i * c + j) d 0%Z) (seq 0 r))
                  (seq 0 c))
  | _ => a
  end.

(** [a.shape[k]] *)
Definition shape_at (a : pyarray) (k : nat) : result nat :=
  match nth_error (shape a) k with
  | Some d => Ok d
  | None => Raise IndexError
  end.

(** [_handle_feature], lines 15-22. *)
Definition _handle_feature (fea : pyarray) : pyarray :=
  if length (shape fea) =? 1 then np_T (np_array_singleton fea) else fea.

(** *** Horizontal stacking *)

Fixpoint shape_eqb (s t : list nat) : bool :=
  match s, t with
  | [], [] => true
  | x :: s', y :: t' => (x =? y) && shape_eqb s' t'
  | _, _ => false
  end.

Definition remove_axis (k : nat) (s : list nat) : list nat :=
  firstn k s ++ skipn (S k) s.

Definition replace_axis (k d : nat) (s : list nat) : list nat :=
  firstn k s ++ d :: skipn (S k) s.

(** The [i]-th run of [size] consecutive elements of a buffer. *)
Definition chunk (i size : nat) (d : list Z) : list Z :=
  firstn size (skipn (i * size) d).

(** [np.concatenate(arrs, axis)] : the arrays must have the same number of
    dimensions, at least [axis + 1] of them, and the same shape off the
    axis; the result interleaves, for every index before the axis, the
    corresponding runs of every array.  Entries are copied as exact
    integers: the common number type numpy chooses keeps the integers
    [exact_value] describes. *)
Definition np_concatenate (axis : nat) (arrs : list pyarray) : result pyarray :=
  match arrs with
  | [] => Raise (ValueError "need at least one array to concatenate")
  | a0 :: _ =>
      if negb (forallb (fun a => ndim a =? ndim a0) arrs)
      then Raise (ValueError "all the input arrays must have same number of dimensions")
      else if ndim a0 <=? axis
      then Raise (ValueError "axis out of bounds")
      else if negb (forallb (fun a => shape_eqb (remove_axis axis (shape a))
                                              (remove_axis axis (shape a0))) arrs)
      then Raise (ValueError "all the input array dimensions off the axis must match")
      else
        let total := list_sum (map (fun a => nth axis (shape a) 0) arrs) in
        let outer := size_of (firstn axis (shape a0)) in
        Ok (NdArray (replace_axis axis total (shape a0))
              (flat_map (fun i =>
                 flat_map (fun a => chunk i (size_of (skipn axis (shape a))) (elements a)) arrs)
                 (seq 0 outer)))
  end.

(** [np.atleast_1d] *)
Definition atleast_1d (a : pyarray) : pyarray :=
  match shape a with
  | [] => NdArray [1] (elements a)
  | _ => a
  end.

(** [np.hstack(tup)] : along the first axis for 1-d arrays, along the second
    otherwise.  The mapper calls it only when no block is sparse. *)
Definition np_hstack (tup : list pyarray) : result pyarray :=
  let arrs := map atleast_1d tup in
  match arrs with
  | a0 :: _ => if ndim a0 =? 1 then np_concatenate 0 arrs else np_concatenate 1 arrs
  | [] => np_concatenate 1 arrs
  end.

(** The conversion [sparse.hstack] applies to every block: a sparse matrix
    is kept, a dense array with two axes is read as a matrix.  Dense blocks
    with another number of axes are treated differently by different
    versions of scipy; the properties below that speak of sparse
    combination are stated for blocks with two axes. *)
Definition as_sparse_block (a : pyarray) : result pyarray :=
  match a with
  | SpMatrix r c d => Ok (SpMatrix r c d)
  | NdArray [] d => Ok (SpMatrix 1 1 d)
  | NdArray [n] d => Ok (SpMatrix 1 n d)
  | NdArray [r; c] d => Ok (SpMatrix r c d)
  | NdArray _ _ => Raise TypeError
  end.

Fixpoint map_result {A B} (f : A -> result B) (l : list A) : result (list B) :=
  match l with
  | [] => Ok []
  | x :: l' => y <- f x ;; ys <- map_result f l' ;; Ok (y :: ys)
  end.

Definition nrows_of (a : pyarray) : nat := nth 0 (shape a) 0.
Definition ncols_of (a : pyarray) : nat := nth 1 (shape a) 0.

(** [sparse.hstack(blocks).tocsr()], for blocks with at least one row;
    blocks whose numbers of rows differ are refused. *)
Definition sparse_hstack (blocks : list pyarray) : result pyarray :=
  bs <- map_result as_sparse_block blocks ;;
  match bs with
  | [] => Raise (ValueError "blocks must be 2-D")
  | b0 :: _ =>
      if negb (forallb (fun b => nrows_of b =? nrows_of b0) bs)
      then Raise (ValueError "blocks have incompatible row dimensions")
      else
        Ok (SpMatrix (nrows_of b0) (list_sum (map ncols_of bs))
              (flat_map (fun i => flat_map (fun b => chunk i (ncols_of b) (elements b)) bs)
                        (seq 0 (nrows_of b0))))
  end.

(** [m.toarray()] *)
Definition toarray (a : pyarray) : pyarray :=
  NdArray (shape a) (elements a).

(** ** pandas containers

    A frame is its number of rows and its labelled columns; selection by
    name takes the first column that carries the label.  A label is a
    string, or the integer pandas gives to an unnamed column. *)

Inductive label : Type :=
| LStr (s : string)
| LInt (n : Z).

Definition label_is (name : string) (l : label) : bool :=
  match l with
  | LStr s => String.eqb s name
  | LInt _ => false
  end.

Record DataFrame : Type := mkFrame {
  df_nrows : nat;
  df_columns : list (label * list Z)
}.

Record Series : Type := mkSeries {
  s_name : option string;
  s_values : list Z
}.

(** [s.to_frame()] *)
Definition to_frame (s : Series) : DataFrame :=
  {| df_nrows := length (s_values s);
     df_columns :=
       [(match s_name s with Some n => LStr n | None => LInt 0 end, s_values s)] |}.

(** The column under a name.  The first column that carries the label is
    taken: on a frame with unique labels that is the column pandas selects;
    for a label carried twice pandas selects every such column, which this
    development does not model (see [unique_labels]). *)
Definition find_column (df : DataFrame) (name : string) : result (list Z) :=
  match find (fun c => label_is name (fst c)) (df_columns df) with
  | Some c => Ok (snd c)
  | None => Raise (KeyError name)
  end.

(** [df[name].values] *)
Definition column_values (df : DataFrame) (name : string) : result pyarray :=
  col <- find_column df name ;;
  Ok (NdArray [df_nrows df] col).

(** [df[names].values].  Entries are copied as exact integers; pandas
    brings columns of different number types to a common type, which keeps
    the integers [exact_value] describes. *)
Definition columns_values (df : DataFrame) (names : list string) : result pyarray :=
  cols <- map_result (find_column df) names ;;
  Ok (NdArray [df_nrows df; length names]
        (flat_map (fun i => map (fun col => nth i col 0%Z) cols) (seq 0 (df_nrows df)))).

(** A row record of a list input, and [x[cols]] on it. *)
Definition record : Type := list (string * Z).

Definition record_get (x : record) (name : string) : result (string * Z) :=
  match find (fun kv => String.eqb (fst kv) name) x with
  | Some kv => Ok kv
  | None => Raise (KeyError name)
  end.

Definition record_getitem (x : record) (cols : list string) : result record :=
  map_result (record_get x) cols.

(** [pd.DataFrame(rows)] for rows that carry the same keys, each once
    (see [plain_input]; pandas refuses rows in which a key is repeated). *)
Definition frame_of_records (rows : list record) : DataFrame :=
  {| df_nrows := length rows;
     df_columns :=
       match rows with
       | [] => []
       | r0 :: _ =>
           map (fun kv =>
                  (LStr (fst kv),
                   map (fun x => match record_get x (fst kv) with
                                 | Ok v => snd v
                                 | Raise _ => 0%Z
                                 end) rows)) r0
       end |}.

(** What [fit], [transform] and [extract_y] receive as [X] and as [y].

    Modelled from the spec: [DataWrapper] belongs to the repository's
    [cross_validation] module, which is not among the sources at hand; the
    specification describes it as a thin wrapper around a container, and
    the mapper reads its [df] attribute. *)
Inductive table : Type :=
| XFrame (df : DataFrame)
| XList (rows : list record)
| XWrapper (df : DataFrame).

Inductive target : Type :=
| YNone
| YFrame (df : DataFrame)
| YSeries (s : Series)
| YOther.

(** ** Transformers

    A transformer is an object with [fit] and [transform].  Both may change
    the object, also when they raise. *)

Class TransformerOps (T : Type) : Type := {
  fit_op : T -> pyarray -> T * result unit;
  transform_op : T -> pyarray -> T * result pyarray
}.

(** A transformer object is a state with its two methods, or a pipeline of
    transformer objects.

    Modelled from the spec: the pipeline class belongs to the repository's
    [pipeline] module, which is not among the sources at hand.  The
    specification describes it as one sequential pipeline that is itself a
    transformer: [transform] runs the steps in order, each on the output of
    the one before; [fit] fits each step on the output of the fitted steps
    before it. *)
Inductive transformer : Type :=
| Estimator (T : Type) (ops : TransformerOps T) (st : T)
| TransformerPipeline (steps : list transformer).

(** [t.transform(Xt)] *)
Fixpoint tr_transform (t : transformer) (Xt : pyarray) : transformer * result pyarray :=
  match t with
  | Estimator ops st =>
      let (st', r) := transform_op st Xt in (Estimator ops st', r)
  | TransformerPipeline steps =>
      let fix through (steps : list transformer) (Xt : pyarray)
          : list transformer * result pyarray :=
        match steps with
        | [] => ([], Ok Xt)
        | s :: rest =>
            let (s', r) := tr_transform s Xt in
            match r with
            | Ok Xt' => let (rest', r') := through rest Xt' in (s' :: rest', r')
            | Raise e => (s' :: rest, Raise e)
            end
        end in
      let (steps', r) := through steps Xt in (TransformerPipeline steps', r)
  end.

(** [t.fit(Xt)] *)
Fixpoint tr_fit (t : transformer) (Xt : pyarray) : transformer * result unit :=
  match t with
  | Estimator ops st =>
      let (st', r) := fit_op st Xt in (Estimator ops st', r)
  | TransformerPipeline steps =>
      let fix through (steps : list transformer) (Xt : pyarray)
          : list transformer * result unit :=
        match steps with
        | [] => ([], Ok tt)
        | s :: rest =>
            let (s1, r1) := tr_fit s Xt in
            match r1, rest with
            | Raise e, _ => (s1 :: rest, Raise e)
            | Ok _, [] => ([s1], Ok tt)
            | Ok _, _ :: _ =>
                let (s2, r2) := tr_transform s1 Xt in
                match r2 with
                | Ok Xt' => let (rest', r') := through rest Xt' in (s2 :: rest', r')
                | Raise e => (s2 :: rest, Raise e)
                end
            end
        end in
      let (steps', r) := through steps Xt in (TransformerPipeline steps', r)
  end.

(** Modelled from the spec: [make_transformer_pipeline] belongs to the
    same missing module; the specification describes it as composing a
    list of transformers into one sequential pipeline. *)
Definition make_transformer_pipeline (steps : list transformer) : transformer :=
  TransformerPipeline steps.

(** ** The mapper *)

(** A column selector: one name, or a list of names. *)
Inductive selector : Type :=
| Single (name : string)
| Columns (names : list string).

(** A stored feature: the selector and the transformer, or [None].  The
    code stores a reference to the caller's transformer object; this
    development gives every feature a transformer of its own, so it
    describes mappers in which no transformer object serves two features
    or a feature and the target spec. *)
Definition feature : Type := (selector * option transformer)%type.

Record DataFrameMapper : Type := mkMapper {
  features : attr (list feature);
  y_feature : attr (option feature);
  sparse : attr bool;
  feature_widths_ : attr (option (list nat))
}.

(** An object fresh from [__new__]: no attribute is bound yet. *)
Definition blank_object : DataFrameMapper :=
  {| features := Absent; y_feature := Absent; sparse := Absent;
     feature_widths_ := Absent |}.

Definition set_features (self : DataFrameMapper) (fs : list feature) :=
  {| features := Present fs; y_feature := y_feature self;
     sparse := sparse self; feature_widths_ := feature_widths_ self |}.

Definition set_y_feature (self : DataFrameMapper) (yf : option feature) :=
  {| features := features self; y_feature := Present yf;
     sparse := sparse self; feature_widths_ := feature_widths_ self |}.

Definition set_sparse (self : DataFrameMapper) (b : bool) :=
  {| features := features self; y_feature := y_feature self;
     sparse := Present b; feature_widths_ := feature_widths_ self |}.

Definition set_feature_widths_ (self : DataFrameMapper) (ws : option (list nat)) :=
  {| features := features self; y_feature := y_feature self;
     sparse := sparse self; feature_widths_ := Present ws |}.

(** What a caller may pass as the transform of a feature. *)
Inductive transformers_arg : Type :=
| NoTransform
| OneTransformer (t : transformer)
| TransformerList (ts : list transformer).

(** [_build_transformer], lines 25-28. *)
Definition _build_transformer (transformers : transformers_arg) : option transformer :=
  match transformers with
  | TransformerList ts => Some (make_transformer_pipeline ts)
  | OneTransformer t => Some t
  | NoTransform => None
  end.

Inductive feature_arg : Type :=
| BareColumn (name : string)
| ColumnsWith (columns : selector) (transformers : transformers_arg).

Inductive features_arg : Type :=
| OneName (name : string)
| FeatureList (fs : list feature_arg).

Definition init_feature (f : feature_arg) : feature :=
  match f with
  | BareColumn name => (Single name, None)
  | ColumnsWith columns transformers => (columns, _build_transformer transformers)
  end.

(** [__init__], lines 97-119. *)
Definition __init__ (features0 : features_arg) (y_feature0 : option feature_arg)
    (sparse0 : bool) : DataFrameMapper :=
  let fs := match features0 with
            | OneName name => [BareColumn name]
            | FeatureList fs => fs
            end in
  {| features := Present (map init_feature fs);
     feature_widths_ := Present None;
     y_feature := Present (option_map init_feature y_feature0);
     sparse := Present sparse0 |}.

(** The dictionary a pickle hands to [__setstate__]; a key may be missing. *)
Record pickled_state : Type := mkState {
  st_features : option (list (selector * transformers_arg));
  st_sparse : option bool;
  st_y_feature : option (option feature);
  st_feature_widths_ : option (option (list nat))
}.

(** [__setstate__], lines 122-126. *)
Definition __setstate__ (self : DataFrameMapper) (state : pickled_state)
    : DataFrameMapper * result unit :=
  match st_features state with
  | None => (self, Raise (KeyError "features"))
  | Some entries =>
      let self1 :=
        set_features self
          (map (fun e => (fst e, _build_transformer (snd e))) entries) in
      (set_sparse self1 (match st_sparse state with Some b => b | None => false end),
       Ok tt)
  end.

(** [_get_col_subset], lines 128-156. *)
Definition _get_col_subset (X : table) (cols0 : selector) : result pyarray :=
  let return_vector := match cols0 with Single _ => true | Columns _ => false end in
  let cols := match cols0 with Single name => [name] | Columns names => names end in
  X1 <- match X with
        | XList rows =>
            rows1 <- map_result (fun x => record_getitem x cols) rows ;;
            Ok (frame_of_records rows1)
        | XWrapper df => Ok df
        | XFrame df => Ok df
        end ;;
  if return_vector
  then column_values X1 (hd "" cols)
  else columns_values X1 cols.

(** Lines 180-186 and again 222-228: where the target columns come from. *)
Definition target_frame (X : table) (y : target) : result DataFrame :=
  match y with
  | YFrame df => Ok df
  | YSeries s => Ok (to_frame s)
  | _ =>
      match X with
      | XFrame df => Ok df
      | _ => Raise AssertionError
      end
  end.

Definition is_none (y : target) : bool :=
  match y with YNone => true | _ => false end.

Definition is_None {A} (o : option A) : bool :=
  match o with None => true | Some _ => false end.

(** [extract_y], lines 166-197. *)
Definition extract_y (self : DataFrameMapper) (X : table) (y : target)
    : DataFrameMapper * result (option pyarray) :=
  match y_feature self with
  | Absent => (self, Raise (AttributeError "y_feature"))
  | Present yf =>
      if is_none y && is_None yf then (self, Ok None)
      else
        match yf with
        | None =>
            (self, Raise (ValueError
               "DataFrameMapper does not support extract_y, self.y_feature is None."))
        | Some (y_columns, y_transformers) =>
            match (df <- target_frame X y ;; _get_col_subset (XFrame df) y_columns) with
            | Raise e => (self, Raise e)
            | Ok yt =>
                match y_transformers with
                | None => (self, Ok (Some yt))
                | Some t =>
                    let (t', r) := tr_transform t yt in
                    (set_y_feature self (Some (y_columns, Some t')),
                     yt' <- r ;; Ok (Some yt'))
                end
            end
        end
  end.

(** One turn of the loop of [fit], lines 210-218: the feature after the
    turn and the width the turn appends. *)
Definition fit_feature (X : table) (f : feature) : feature * result nat :=
  let (columns, transformers) := f in
  match _get_col_subset X columns with
  | Raise e => (f, Raise e)
  | Ok Xt =>
      match transformers with
      | None => (f, shape_at (_handle_feature Xt) 1)
      | Some t =>
          let (t1, r1) := tr_fit t Xt in
          match r1 with
          | Raise e => ((columns, Some t1), Raise e)
          | Ok _ =>
              let (t2, r2) := tr_transform t1 Xt in
              ((columns, Some t2),
               Xt' <- r2 ;; shape_at (_handle_feature Xt') 1)
          end
      end
  end.

(** The loop of [fit]; [feature_widths] is the local list it appends to. *)
Fixpoint fit_features (X : table) (fs : list feature) (feature_widths : list nat)
    : list feature * result (list nat) :=
  match fs with
  | [] => ([], Ok feature_widths)
  | f :: rest =>
      let (f', r) := fit_feature X f in
      match r with
      | Raise e => (f' :: rest, Raise e)
      | Ok w =>
          let (rest', r') := fit_features X rest (feature_widths ++ [w]) in
          (f' :: rest', r')
      end
  end.

(** Lines 221-232 of [fit]: fitting the target transformer. *)
Definition fit_target (self : DataFrameMapper) (X : table) (y : target)
    : DataFrameMapper * result unit :=
  match y_feature self with
  | Absent => (self, Raise (AttributeError "y_feature"))
  | Present None => (self, Ok tt)
  | Present (Some (y_columns, y_transformers)) =>
      match target_frame X y with
      | Raise e => (self, Raise e)
      | Ok df =>
          match y_transformers with
          | None => (self, Ok tt)
          | Some t =>
              match _get_col_subset (XFrame df) y_columns with
              | Raise e => (self, Raise e)
              | Ok yt =>
                  let (t', r) := tr_fit t yt in
                  (set_y_feature self (Some (y_columns, Some t')), r)
              end
          end
      end
  end.

(** [fit], lines 199-234. *)
Definition fit (self : DataFrameMapper) (X : table) (y : target)
    : DataFrameMapper * result unit :=
  match features self with
  | Absent => (self, Raise (AttributeError "features"))
  | Present fs =>
      let (fs', r) := fit_features X fs [] in
      let self1 := set_features self fs' in
      match r with
      | Raise e => (self1, Raise e)
      | Ok feature_widths =>
          fit_target (set_feature_widths_ self1 (Some feature_widths)) X y
      end
  end.

(** One turn of the loop of [transform], lines 243-250. *)
Definition transform_feature (X : table) (f : feature) : feature * result pyarray :=
  let (columns, transformers) := f in
  match _get_col_subset X columns with
  | Raise e => (f, Raise e)
  | Ok Xt =>
      match transformers with
      | None => (f, Ok (_handle_feature Xt))
      | Some t =>
          let (t', r) := tr_transform t Xt in
          ((columns, Some t'), Xt' <- r ;; Ok (_handle_feature Xt'))
      end
  end.

Fixpoint transform_features (X : table) (fs : list feature) (extracted : list pyarray)
    : list feature * result (list pyarray) :=
  match fs with
  | [] => ([], Ok extracted)
  | f :: rest =>
      let (f', r) := transform_feature X f in
      match r with
      | Raise e => (f' :: rest, Raise e)
      | Ok fea =>
          let (rest', r') := transform_features X rest (extracted ++ [fea]) in
          (f' :: rest', r')
      end
  end.

(** Lines 259-268 of [transform]: combining the extracted blocks. *)
Definition stack (self : DataFrameMapper) (extracted : list pyarray) : result pyarray :=
  if existsb issparse extracted then
    stacked <- sparse_hstack extracted ;;
    flag <- getattr "sparse" (sparse self) ;;
    if negb flag then Ok (toarray stacked) else Ok stacked
  else np_hstack extracted.

(** [transform], lines 236-268. *)
Definition transform (self : DataFrameMapper) (X : table)
    : DataFrameMapper * result pyarray :=
  match features self with
  | Absent => (self, Raise (AttributeError "features"))
  | Present fs =>
      let (fs', r) := transform_features X fs [] in
      let self1 := set_features self fs' in
      (self1, extracted <- r ;; stack self1 extracted)
  end.

(** [extract_X], lines 162-164. *)
Definition extract_X (self : DataFrameMapper) (X : table) := transform self X.

(** [extract_Xy], lines 158-160. *)
Definition extract_Xy (self : DataFrameMapper) (X : table) (y : target)
    : DataFrameMapper * result (pyarray * option pyarray) :=
  let (self1, rx) := extract_X self X in
  match rx with
  | Raise e => (self1, Raise e)
  | Ok Xt =>
      let (self2, ry) := extract_y self1 X y in
      (self2, yt <- ry ;; Ok (Xt, yt))
  end.

(** *** Derived attributes, lines 73-95 *)

(** [np.cumsum(l)] *)
Fixpoint cumsum_from (acc : nat) (l : list nat) : list nat :=
  match l with
  | [] => []
  | x :: l' => (acc + x) :: cumsum_from (acc + x) l'
  end.

Definition np_cumsum (l : list nat) : list nat := cumsum_from 0 l.

(** [list(self.feature_widths_)] *)
Definition widths_list (self : DataFrameMapper) : result (list nat) :=
  ws <- getattr "feature_widths_" (feature_widths_ self) ;;
  match ws with
  | Some l => Ok l
  | None => Raise TypeError
  end.

Definition feature_indices_ (self : DataFrameMapper) : result (list nat) :=
  ws <- widths_list self ;;
  Ok (np_cumsum (0 :: ws)).

(** [np.sum] of [None] is [None]. *)
Definition X_n_features_ (self : DataFrameMapper) : result (option nat) :=
  ws <- getattr "feature_widths_" (feature_widths_ self) ;;
  Ok (option_map (@list_sum) ws).

(** The loop of [X_features_], lines 86-89: every feature, as often as
    its width says. *)
Definition spread (ws : list nat) (fs : list feature) : list feature :=
  flat_map (fun wf => repeat (snd wf) (fst wf)) (combine ws fs).

(** The rows of the object array [np.array(rs, dtype=object)]. *)
Definition X_features_ (self : DataFrameMapper) : result (list feature) :=
  ws <- getattr "feature_widths_" (feature_widths_ self) ;;
  fs <- getattr "features" (features self) ;;
  match ws with
  | None => Raise TypeError
  | Some widths =>
      Ok (spread widths fs)
  end.

(** [self.X_features_[:,0]] : an array built from an empty list has one
    axis only, and indexing it with two indices raises. *)
Definition X_columns_ (self : DataFrameMapper) : result (list selector) :=
  rs <- X_features_ self ;;
  match rs with
  | [] => Raise IndexError
  | _ :: _ => Ok (map fst rs)
  end.

(** ** Sample data *)

(** Two rows, columns [age] and [city]. *)
Definition people : DataFrame :=
  {| df_nrows := 2;
     df_columns := [(LStr "age", [30; 41]%Z); (LStr "city", [0; 2]%Z)] |}.

(** Subtracts from every entry the first entry seen by [fit]; raises until
    it has been fitted. *)
#[export] Instance shift_ops : TransformerOps (option Z) := {
  fit_op st Xt := (Some (hd 0%Z (elements Xt)), Ok tt);
  transform_op st Xt :=
    match st with
    | None => (st, Raise (OtherError "NotFittedError"))
    | Some z => (st, Ok (NdArray (shape Xt) (map (fun v => (v - z)%Z) (elements Xt))))
    end
}.

Definition shift : transformer := Estimator shift_ops None.

(** Returns its input in sparse representation, one column per input
    column. *)
#[export] Instance sparsify_ops : TransformerOps unit := {
  fit_op st Xt := (st, Ok tt);
  transform_op st Xt :=
    (st, Ok (SpMatrix (nrows_of Xt) (match shape Xt with [_; c] => c | _ => 1 end)
               (elements Xt)))
}.

Definition sparsify : transformer := Estimator sparsify_ops tt.

(** Returns its input with a trailing axis of length one added twice. *)
#[export] Instance cube_ops : TransformerOps unit := {
  fit_op st Xt := (st, Ok tt);
  transform_op st Xt := (st, Ok (NdArray (shape Xt ++ [1; 1]) (elements Xt)))
}.

Definition cube : transformer := Estimator cube_ops tt.

(** Counts its calls to [transform] and adds the count to every entry. *)
#[export] Instance counter_ops : TransformerOps Z := {
  fit_op st Xt := (st, Ok tt);
  transform_op st Xt :=
    ((st + 1)%Z, Ok (NdArray (shape Xt) (map (fun v => (v + st)%Z) (elements Xt))))
}.

Definition counter : transformer := Estimator counter_ops 0%Z.

(** ** Predicates used in the statements *)

(** A block with two axes and [n] rows. *)
Definition matrix_with_rows (n : nat) (a : pyarray) : Prop :=
  exists c, shape a = [n; c].

(** A transformer whose [transform] leaves it as it was.  The model is a
    function of the transformer's state, so a transformer that draws random
    numbers is one that changes its state. *)
Definition transform_keeps (t : transformer) : Prop :=
  forall Xt, fst (tr_transform t Xt) = t.

Definition feature_stable (f : feature) : Prop :=
  match snd f with
  | None => True
  | Some t => transform_keeps t
  end.

(** Where the target columns are read from, in the words of the
    description: the target when it is a frame, the target as a one-column
    frame when it is a series, and otherwise the primary input, which then
    has to be a frame. *)
Inductive resolves_target : table -> target -> DataFrame -> Prop :=
| target_is_frame X df : resolves_target X (YFrame df) df
| target_is_series X s : resolves_target X (YSeries s) (to_frame s)
| target_falls_back df y :
    (forall d, y <> YFrame d) -> (forall s, y <> YSeries s) ->
    resolves_target (XFrame df) y df.


(** The number of rows of an input. *)
Definition table_nrows (X : table) : nat :=
  match X with
  | XFrame df => df_nrows df
  | XWrapper df => df_nrows df
  | XList rows => length rows
  end.

(** The names a selector asks for. *)
Definition selected_names (cols : selector) : list string :=
  match cols with
  | Single name => [name]
  | Columns names => names
  end.

(** The frame carries a column with this name. *)
Definition has_column (df : DataFrame) (name : string) : bool :=
  existsb (fun c => label_is name (fst c)) (df_columns df).

(** The number of output columns of a selector that has no transformer. *)
Definition selector_width (cols : selector) : nat :=
  match cols with
  | Single _ => 1
  | Columns names => length names
  end.

(** A feature whose transformer, once fitted on any data, is left as it is
    by [transform]. *)
Definition stable_after_fit (f : feature) : Prop :=
  match snd f with
  | None => True
  | Some t => forall Xt, transform_keeps (fst (tr_fit t Xt))
  end.

(** A block with two axes, [n] rows, and a buffer of the announced size. *)
Definition full_matrix (n : nat) (a : pyarray) : Prop :=
  exists c, shape a = [n; c] /\ length (elements a) = n * c.

(** The buffer of blocks stood side by side: row after row, and within a
    row block after block, the run of the block's columns. *)
Definition hstack_data (n : nat) (blocks : list pyarray) : list Z :=
  flat_map (fun i => flat_map (fun b => chunk i (ncols_of b) (elements b)) blocks)
           (seq 0 n).

(** The column at which block [k] starts in the combination. *)
Definition block_offset (blocks : list pyarray) (k : nat) : nat :=
  list_sum (map ncols_of (firstn k blocks)).

(** ** The inputs the containers are modelled for

    Selection by name is modelled for frames that carry every label once,
    for record lists whose records carry every key once, and for list
    selectors that name no column twice.  Entries are exact integers; numpy
    and pandas bring blocks of different number types to a common type,
    which keeps every integer of magnitude up to [2 ^ 53]. *)

Definition unique_labels (df : DataFrame) : Prop :=
  NoDup (map fst (df_columns df)).

Definition plain_input (X : table) (cols : selector) : Prop :=
  match X with
  | XFrame df => unique_labels df
  | XWrapper df => unique_labels df
  | XList rows =>
      NoDup (selected_names cols) /\
      Forall (fun x : record => NoDup (map fst x)) rows
  end.

Definition exact_value (v : Z) : Prop := (Z.abs v <= 2 ^ 53)%Z.

Definition exact_frame (df : DataFrame) : Prop :=
  Forall (fun c => Forall exact_value (snd c)) (df_columns df).

Definition exact_records (rows : list record) : Prop :=
  Forall (fun x : record => Forall (fun kv => exact_value (snd kv)) x) rows.

Definition exact_block (a : pyarray) : Prop :=
  Forall exact_value (elements a).

(** * Properties *)

(** ** The column-vector rule *)

Lemma flat_map_unit {A B} (f : A -> B) (l : list A) :
  flat_map (fun x => [f x]) l = map f l.
Proof.
  induction l as [|x l IH]; simpl; [reflexivity | now rewrite IH].
Qed.

Lemma map_nth_all (d : list Z) :
  map (fun j => nth j d 0%Z) (seq 0 (length d)) = d.
Proof.
  apply nth_ext with (d := 0%Z) (d' := 0%Z).
  - now rewrite length_map, length_seq.
  - intros i Hi. rewrite length_map, length_seq in Hi.
    rewrite (nth_indep _ 0%Z (nth 0 d 0%Z)) by now rewrite length_map, length_seq.
    rewrite (map_nth (fun j => nth j d 0%Z)), seq_nth by assumption.
    reflexivity.
Qed.

Lemma handle_feature_vector (n : nat) (d : list Z) :
  _handle_feature (NdArray [n] d)
  = NdArray [n; 1] (map (fun j => nth j d 0%Z) (seq 0 n)).
Proof.
  unfold _handle_feature, np_array_singleton, np_T; simpl.
  now rewrite flat_map_unit.
Qed.

Lemma handle_feature_other (fea : pyarray) :
  ndim fea <> 1 -> _handle_feature fea = fea.
Proof.
  unfold _handle_feature, ndim; intros H.
  destruct (Nat.eqb_spec (length (shape fea)) 1); [contradiction | reflexivity].
Qed.

Lemma handle_feature_never_vector (fea : pyarray) :
  ndim (_handle_feature fea) <> 1.
Proof.
  destruct (Nat.eq_dec (ndim fea) 1) as [E|E].
  - destruct fea as [s d|r c d]; [|discriminate E].
    destruct s as [|n [|? ?]]; try discriminate E.
    rewrite handle_feature_vector. discriminate.
  - now rewrite handle_feature_other.
Qed.

Lemma transform_feature_output (X : table) (f f' : feature) (out : pyarray) :
  transform_feature X f = (f', Ok out) ->
  exists Xt, out = _handle_feature Xt.
Proof.
  unfold transform_feature. destruct f as [columns [t|]].
  - destruct (_get_col_subset X columns) as [Xt|e]; [|discriminate].
    destruct (tr_transform t Xt) as [t' [Xt'|e]]; simpl; [|discriminate].
    intros H; inversion H; eauto.
  - destruct (_get_col_subset X columns) as [Xt|e]; [|discriminate].
    intros H; inversion H; eauto.
Qed.

(** C8, as the code has it: an array with one axis of length [n] becomes
    the [n] x 1 matrix holding the same entries, an array with any other
    number of axes is returned as it is, so the result has two axes exactly
    when the array had one or two.  [fit] measures the width on the
    normalised output of the selection or of the fitted transformer, so an
    output with one axis has width 1 where its own shape has no second
    entry; [transform] hands the normalised output to the combination, so
    no block has exactly one axis and an output with three or more axes is
    handed on as it is. *)
Theorem handle_feature_column_vector (fea : pyarray) :
  (forall n, shape fea = [n] ->
     shape (_handle_feature fea) = [n; 1] /\
     issparse (_handle_feature fea) = false /\
     (forall i, i < n -> item2 (_handle_feature fea) i 0 = item1 fea i) /\
     (well_shaped fea = true -> elements (_handle_feature fea) = elements fea) /\
     shape_at fea 1 = Raise IndexError /\
     shape_at (_handle_feature fea) 1 = Ok 1) /\
  (ndim fea <> 1 -> _handle_feature fea = fea) /\
  (ndim (_handle_feature fea) = 2 <-> ndim fea = 1 \/ ndim fea = 2) /\
  (forall X f f' out, transform_feature X f = (f', Ok out) -> ndim out <> 1) /\
  (forall X cols,
     fit_feature X (cols, None)
     = ((cols, None), a <- _get_col_subset X cols ;; shape_at (_handle_feature a) 1)) /\
  (forall X cols t Xt t1 u t2,
     _get_col_subset X cols = Ok Xt ->
     tr_fit t Xt = (t1, Ok u) ->
     tr_transform t1 Xt = (t2, Ok fea) ->
     fit_feature X (cols, Some t)
     = ((cols, Some t2), shape_at (_handle_feature fea) 1)) /\
  (forall X cols,
     _get_col_subset X cols = Ok fea ->
     transform_feature X (cols, None) = ((cols, None), Ok (_handle_feature fea))) /\
  (forall X cols t Xt t',
     _get_col_subset X cols = Ok Xt ->
     tr_transform t Xt = (t', Ok fea) ->
     transform_feature X (cols, Some t) = ((cols, Some t'), Ok (_handle_feature fea)) /\
     (3 <= ndim fea ->
      transform_feature X (cols, Some t) = ((cols, Some t'), Ok fea))).
Proof.
  split; [|split; [|split; [|split; [|split; [|split; [|split]]]]]].
  - intros n H.
    destruct fea as [s d|r c d]; simpl in H; [subst s|discriminate].
    rewrite handle_feature_vector. split; [reflexivity|].
    split; [reflexivity|]. split; [|split; [|split; reflexivity]].
    + intros i Hi. unfold item2, item1; simpl.
      rewrite Nat.mul_1_r, Nat.add_0_r.
      rewrite (nth_indep _ 0%Z (nth 0 d 0%Z)) by now rewrite length_map, length_seq.
      rewrite (map_nth (fun j => nth j d 0%Z)), seq_nth by assumption.
      reflexivity.
    + intros Hw. unfold well_shaped in Hw; simpl in Hw.
      apply Nat.eqb_eq in Hw. rewrite Nat.mul_1_r in Hw. subst n.
      simpl. apply map_nth_all.
  - apply handle_feature_other.
  - split.
    + intros H. destruct (Nat.eq_dec (ndim fea) 1) as [E|E]; [now left|].
      right. now rewrite handle_feature_other in H.
    + intros [E|E].
      * destruct fea as [s d|r c d]; [|discriminate E].
        destruct s as [|n [|? ?]]; try discriminate E.
        now rewrite handle_feature_vector.
      * rewrite handle_feature_other; [assumption | now rewrite E].
  - intros X f f' out H. apply transform_feature_output in H as [Xt ->].
    apply handle_feature_never_vector.
  - intros X cols. unfold fit_feature.
    now destruct (_get_col_subset X cols).
  - intros X cols t Xt t1 u t2 Hsel Hfit Htr. unfold fit_feature.
    now rewrite Hsel, Hfit, Htr.
  - intros X cols Hsel. unfold transform_feature. now rewrite Hsel.
  - intros X cols t Xt t' Hsel Htr.
    assert (H : transform_feature X (cols, Some t)
                = ((cols, Some t'), Ok (_handle_feature fea))).
    { unfold transform_feature. now rewrite Hsel, Htr. }
    split; [exact H|]. intros Hr.
    now rewrite handle_feature_other in H by lia.
Qed.

Lemma handle_feature_column_vector_witness :
  shape (_handle_feature (NdArray [2] [30; 41]%Z)) = [2; 1] /\
  elements (_handle_feature (NdArray [2] [30; 41]%Z)) = [30; 41]%Z /\
  _handle_feature (SpMatrix 2 1 [30; 41]%Z) = SpMatrix 2 1 [30; 41]%Z /\
  snd (fit_feature (XFrame people) (Single "age", Some shift)) = Ok 1 /\
  snd (transform_feature (XFrame people) (Single "age", Some cube))
  = Ok (NdArray [2; 1; 1] [30; 41]%Z).
Proof.
  destruct (handle_feature_column_vector (NdArray [2] [30; 41]%Z)) as [H1 _].
  destruct (H1 2 eq_refl) as [Hs [_ [_ [He _]]]].
  destruct (handle_feature_column_vector (SpMatrix 2 1 [30; 41]%Z)) as [_ [H2 _]].
  destruct (handle_feature_column_vector (NdArray [2] [0; 11]%Z))
    as [H3 [_ [_ [_ [_ [H4 _]]]]]].
  destruct (handle_feature_column_vector (NdArray [2; 1; 1] [30; 41]%Z))
    as [_ [_ [_ [_ [_ [_ [_ H5]]]]]]].
  split; [exact Hs|]. split; [exact (He eq_refl)|].
  split; [apply H2; discriminate|]. split.
  - rewrite (H4 (XFrame people) (Single "age") shift (NdArray [2] [30; 41]%Z)
               (Estimator shift_ops (Some 30%Z)) tt
               (Estimator shift_ops (Some 30%Z)) eq_refl eq_refl eq_refl).
    simpl snd. exact (proj2 (proj2 (proj2 (proj2 (proj2 (H3 2 eq_refl)))))).
  - destruct (H5 (XFrame people) (Single "age") cube (NdArray [2] [30; 41]%Z)
                cube eq_refl eq_refl) as [_ H6].
    rewrite H6; [reflexivity | unfold ndim; simpl; lia].
Defined.

(** C8 as stated fails: a transformer that returns an array with three axes
    has it passed on with three axes. *)
Lemma handle_feature_rank3_passes :
  ~ (forall X f f' out, transform_feature X f = (f', Ok out) -> ndim out = 2).
Proof.
  intros H.
  specialize (H (XFrame people) (Single "age", Some cube)
                (Single "age", Some cube) (NdArray [2; 1; 1] [30; 41]%Z) eq_refl).
  discriminate H.
Qed.

(** ** Offsets and provenance *)

Lemma cumsum_from_length (acc : nat) (l : list nat) :
  length (cumsum_from acc l) = length l.
Proof.
  revert acc; induction l as [|x l IH]; intros acc; simpl; [reflexivity|].
  now rewrite IH.
Qed.

Lemma list_sum_cons (x : nat) (l : list nat) :
  list_sum (x :: l) = x + list_sum l.
Proof. reflexivity. Qed.

Lemma cumsum_from_nth (l : list nat) :
  forall acc i, i < length l ->
  nth i (cumsum_from acc l) 0 = acc + list_sum (firstn (S i) l).
Proof.
  induction l as [|x l IH]; intros acc i Hi; simpl in Hi; [lia|].
  destruct i as [|i].
  - simpl. lia.
  - change (nth (S i) (cumsum_from acc (x :: l)) 0)
      with (nth i (cumsum_from (acc + x) l) 0).
    rewrite IH by lia.
    change (firstn (S (S i)) (x :: l)) with (x :: firstn (S i) l).
    rewrite list_sum_cons. lia.
Qed.

Lemma list_sum_firstn_S (l : list nat) :
  forall i, list_sum (firstn (S i) l) = list_sum (firstn i l) + nth i l 0.
Proof.
  induction l as [|x l IH]; intros i.
  - destruct i; reflexivity.
  - destruct i as [|i].
    + simpl. lia.
    + change (firstn (S (S i)) (x :: l)) with (x :: firstn (S i) l).
      change (firstn (S i) (x :: l)) with (x :: firstn i l).
      rewrite !list_sum_cons. simpl nth. rewrite IH. lia.
Qed.

Lemma list_sum_firstn_mono (l : list nat) (i j : nat) :
  i <= j -> list_sum (firstn i l) <= list_sum (firstn j l).
Proof.
  induction 1 as [|j _ IH]; [lia|].
  rewrite list_sum_firstn_S. lia.
Qed.

Lemma np_cumsum_offsets (ws : list nat) (k : nat) :
  k <= length ws ->
  nth k (np_cumsum (0 :: ws)) 0 = list_sum (firstn k ws).
Proof.
  intros Hk. unfold np_cumsum. simpl cumsum_from.
  destruct k as [|k]; [reflexivity|].
  simpl nth. rewrite cumsum_from_nth by lia. lia.
Qed.

(** C2: the offsets are the prefix sums of the widths behind a leading 0,
    one more than there are features, non-decreasing, with consecutive
    differences equal to the widths; the total width is their sum, which is
    also the last offset. *)
Theorem feature_indices_prefix_sums
    (self : DataFrameMapper) (ws : list nat) (fs : list feature) :
  feature_widths_ self = Present (Some ws) ->
  features self = Present fs ->
  length ws = length fs ->
  exists offs,
    feature_indices_ self = Ok offs /\
    length offs = length fs + 1 /\
    nth 0 offs 0 = 0 /\
    (forall k, k <= length ws -> nth k offs 0 = list_sum (firstn k ws)) /\
    (forall i j, i <= j -> j < length offs -> nth i offs 0 <= nth j offs 0) /\
    (forall i, i < length ws ->
       nth i offs 0 <= nth (S i) offs 0 /\
       nth (S i) offs 0 - nth i offs 0 = nth i ws 0) /\
    X_n_features_ self = Ok (Some (list_sum ws)) /\
    nth (length fs) offs 0 = list_sum ws.
Proof.
  intros Hw Hf Hlen.
  exists (np_cumsum (0 :: ws)).
  assert (Hl : length (np_cumsum (0 :: ws)) = length ws + 1).
  { unfold np_cumsum; rewrite cumsum_from_length; simpl; lia. }
  split; [unfold feature_indices_, widths_list; now rewrite Hw|].
  split; [lia|]. split; [reflexivity|].
  split; [intros k Hk; now apply np_cumsum_offsets|].
  split.
  { intros i j Hij Hj. rewrite !np_cumsum_offsets by lia.
    now apply list_sum_firstn_mono. }
  split.
  { intros i Hi. rewrite !np_cumsum_offsets by lia.
    rewrite list_sum_firstn_S. lia. }
  split; [unfold X_n_features_; now rewrite Hw|].
  rewrite <- Hlen, np_cumsum_offsets by lia.
  now rewrite firstn_all.
Qed.

Lemma feature_indices_prefix_sums_witness :
  exists offs,
    feature_indices_
      {| features := Present [(Single "age", None); (Single "city", Some sparsify)];
         y_feature := Present None; sparse := Present false;
         feature_widths_ := Present (Some [1; 3]) |} = Ok offs /\
    offs = [0; 1; 4].
Proof.
  destruct (@feature_indices_prefix_sums
              {| features := Present [(Single "age", None); (Single "city", Some sparsify)];
                 y_feature := Present None; sparse := Present false;
                 feature_widths_ := Present (Some [1; 3]) |}
              [1; 3] [(Single "age", None); (Single "city", Some sparsify)]
              eq_refl eq_refl eq_refl) as [offs [H _]].
  exists offs. split; [exact H|].
  simpl in H. inversion H. reflexivity.
Defined.

Lemma spread_length (ws : list nat) :
  forall fs, length ws = length fs -> length (spread ws fs) = list_sum ws.
Proof.
  induction ws as [|w ws IH]; intros [|f fs] H; try discriminate; [reflexivity|].
  unfold spread in *; simpl.
  rewrite length_app, repeat_length, IH; [reflexivity|].
  simpl in H; lia.
Qed.

Lemma spread_span (ws : list nat) :
  forall fs i c,
    length ws = length fs ->
    i < length fs ->
    list_sum (firstn i ws) <= c < list_sum (firstn (S i) ws) ->
    nth_error (spread ws fs) c = nth_error fs i.
Proof.
  induction ws as [|w ws IH]; intros [|f fs] i c Hlen Hi Hc;
    try discriminate; simpl in Hi; [lia|].
  unfold spread in *; simpl flat_map.
  destruct i as [|i].
  - simpl in Hc. rewrite nth_error_app1 by (rewrite repeat_length; lia).
    simpl. apply nth_error_repeat. lia.
  - change (firstn (S (S i)) (w :: ws)) with (w :: firstn (S i) ws) in Hc.
    change (firstn (S i) (w :: ws)) with (w :: firstn i ws) in Hc.
    rewrite !list_sum_cons in Hc.
    rewrite nth_error_app2 by (rewrite repeat_length; lia).
    rewrite repeat_length. simpl nth_error.
    apply IH; simpl in Hlen; lia.
Qed.

(** With one width per feature, the back-reference array has
    [sum(widths)] rows, and on the span of feature [i] every row is
    feature [i]; whenever it has a row, the selector array is its first
    column. *)
Lemma X_features_spans
    (self : DataFrameMapper) (ws : list nat) (fs : list feature) :
  feature_widths_ self = Present (Some ws) ->
  features self = Present fs ->
  length ws = length fs ->
  exists rs,
    X_features_ self = Ok rs /\
    length rs = list_sum ws /\
    (forall i c, i < length fs ->
       list_sum (firstn i ws) <= c < list_sum (firstn (S i) ws) ->
       nth_error rs c = nth_error fs i) /\
    (0 < list_sum ws -> X_columns_ self = Ok (map fst rs)).
Proof.
  intros Hw Hf Hlen. exists (spread ws fs).
  assert (HX : X_features_ self = Ok (spread ws fs)).
  { unfold X_features_; now rewrite Hw, Hf. }
  split; [exact HX|].
  split; [now apply spread_length|].
  split; [intros i c Hi Hc; now apply spread_span|].
  intros Hpos. unfold X_columns_. rewrite HX. simpl.
  pose proof (spread_length ws fs Hlen) as Hl.
  destruct (spread ws fs); [simpl in Hl; lia | reflexivity].
Qed.

(** The failing case of C5: a mapper without features fits, its
    back-reference array is empty, and reading the selector array raises
    instead of giving the empty array. *)
Theorem X_columns_of_empty_mapper_raises :
  let fitted := fit (__init__ (FeatureList []) None false) (XFrame people) YNone in
  snd fitted = Ok tt /\
  feature_widths_ (fst fitted) = Present (Some []) /\
  X_n_features_ (fst fitted) = Ok (Some 0) /\
  X_features_ (fst fitted) = Ok [] /\
  X_columns_ (fst fitted) = Raise IndexError.
Proof.
  repeat split; reflexivity.
Qed.

(** ** Fitting *)

Lemma fit_feature_selector (X : table) (f : feature) :
  fst (fst (fit_feature X f)) = fst f.
Proof.
  unfold fit_feature. destruct f as [columns [t|]]; simpl.
  - destruct (_get_col_subset X columns) as [Xt|e]; [|reflexivity].
    destruct (tr_fit t Xt) as [t1 [u|e]]; [|reflexivity].
    destruct (tr_transform t1 Xt) as [t2 r2]; reflexivity.
  - destruct (_get_col_subset X columns) as [Xt|e]; reflexivity.
Qed.

Lemma fit_features_ok (X : table) (fs : list feature) :
  forall acc fs' ws,
    fit_features X fs acc = (fs', Ok ws) ->
    exists new,
      ws = acc ++ new /\
      map fst fs' = map fst fs /\
      Forall2 (fun f w => snd (fit_feature X f) = Ok w) fs new.
Proof.
  induction fs as [|f fs IH]; intros acc fs' ws H; simpl in H.
  - inversion H; subst. exists []. rewrite app_nil_r. repeat split. constructor.
  - destruct (fit_feature X f) as [f' [w|e]] eqn:Ef; [|discriminate].
    destruct (fit_features X fs (acc ++ [w])) as [rest' r'] eqn:Er.
    inversion H; subst.
    destruct (IH _ _ _ Er) as [new [Hws [Hsel Hall]]].
    exists (w :: new). split; [now rewrite Hws, <- app_assoc|].
    split.
    + simpl. rewrite Hsel. f_equal.
      pose proof (fit_feature_selector X f) as Hf. now rewrite Ef in Hf.
    + constructor; [now rewrite Ef | assumption].
Qed.

Lemma fit_target_frame (self : DataFrameMapper) (X : table) (y : target) :
  feature_widths_ (fst (fit_target self X y)) = feature_widths_ self /\
  features (fst (fit_target self X y)) = features self /\
  sparse (fst (fit_target self X y)) = sparse self.
Proof.
  unfold fit_target.
  destruct (y_feature self) as [|[[y_columns [t|]]|]]; try (repeat split; reflexivity);
    destruct (target_frame X y) as [df|e]; try (repeat split; reflexivity).
  destruct (_get_col_subset (XFrame df) y_columns) as [yt|e];
    [|repeat split; reflexivity].
  destruct (tr_fit t yt) as [t' r]. repeat split; reflexivity.
Qed.

(** C6, as the code has it: a fit that returns leaves one width per
    feature, in the order of the features, whose selectors it keeps; the
    width of a feature is what its turn of the loop measured, a natural
    number that may be zero. *)
Theorem fit_sets_one_width_per_feature
    (self self' : DataFrameMapper) (X : table) (y : target) :
  fit self X y = (self', Ok tt) ->
  exists fs fs' ws,
    features self = Present fs /\
    features self' = Present fs' /\
    feature_widths_ self' = Present (Some ws) /\
    length ws = length fs /\
    map fst fs' = map fst fs /\
    Forall2 (fun f w => snd (fit_feature X f) = Ok w) fs ws.
Proof.
  unfold fit. destruct (features self) as [|fs] eqn:Hf; [discriminate|].
  destruct (fit_features X fs []) as [fs' [ws|e]] eqn:E; [|discriminate].
  intros H.
  destruct (fit_features_ok _ _ _ E) as [new [Hws [Hsel Hall]]].
  simpl in Hws; subst new.
  pose proof (fit_target_frame
                (set_feature_widths_ (set_features self fs') (Some ws)) X y)
    as [Hw' [Hf' _]].
  rewrite H in Hw', Hf'; simpl in Hw', Hf'.
  exists fs, fs', ws. repeat split; try assumption.
  symmetry. eapply Forall2_length; eassumption.
Qed.

Lemma fit_sets_one_width_per_feature_witness :
  exists ws,
    feature_widths_
      (fst (fit (__init__ (FeatureList [BareColumn "age";
                                        ColumnsWith (Columns ["city"; "age"])
                                                    (OneTransformer shift)])
                          None false)
                (XFrame people) YNone)) = Present (Some ws) /\
    ws = [1; 2].
Proof.
  destruct (@fit_sets_one_width_per_feature
              (__init__ (FeatureList [BareColumn "age";
                                      ColumnsWith (Columns ["city"; "age"])
                                                  (OneTransformer shift)])
                        None false)
              _ (XFrame people) YNone eq_refl)
    as [fs [fs' [ws [_ [_ [Hw _]]]]]].
  exists ws. split; [exact Hw|].
  simpl in Hw. inversion Hw. reflexivity.
Defined.

(** C6 as stated fails: a feature that selects the empty list of columns
    has width zero after a fit that returns. *)
Lemma fit_width_can_be_zero :
  ~ (forall self X y self' ws,
       fit self X y = (self', Ok tt) ->
       feature_widths_ self' = Present (Some ws) ->
       Forall (fun w => 0 < w) ws).
Proof.
  intros H.
  specialize (H (__init__ (FeatureList [ColumnsWith (Columns []) NoTransform]) None false)
                (XFrame people) YNone _ [0] eq_refl eq_refl).
  inversion H; lia.
Qed.

(** C7: when the loop over the features raises, [fit] raises the same
    exception and the stored widths are what they were. *)
Theorem fit_failure_keeps_widths
    (self : DataFrameMapper) (X : table) (y : target)
    (fs fs' : list feature) (e : exn) :
  features self = Present fs ->
  fit_features X fs [] = (fs', Raise e) ->
  snd (fit self X y) = Raise e /\
  feature_widths_ (fst (fit self X y)) = feature_widths_ self.
Proof.
  intros Hf Hloop. unfold fit. rewrite Hf, Hloop. split; reflexivity.
Qed.

Lemma fit_failure_keeps_widths_witness :
  let self := set_feature_widths_
                (__init__ (FeatureList [BareColumn "age"; BareColumn "height"]) None false)
                (Some [7; 7]) in
  snd (fit self (XFrame people) YNone) = Raise (KeyError "height") /\
  feature_widths_ (fst (fit self (XFrame people) YNone)) = Present (Some [7; 7]).
Proof.
  exact (@fit_failure_keeps_widths
           (set_feature_widths_
              (__init__ (FeatureList [BareColumn "age"; BareColumn "height"]) None false)
              (Some [7; 7]))
           (XFrame people) YNone
           [(Single "age", None); (Single "height", None)]
           [(Single "age", None); (Single "height", None)]
           (KeyError "height") eq_refl eq_refl).
Defined.

(** The widths change only when the loop has run to its end. *)
Lemma fit_changes_widths_after_loop
    (self : DataFrameMapper) (X : table) (y : target) :
  feature_widths_ (fst (fit self X y)) = feature_widths_ self \/
  exists fs fs' ws,
    features self = Present fs /\
    fit_features X fs [] = (fs', Ok ws) /\
    feature_widths_ (fst (fit self X y)) = Present (Some ws).
Proof.
  unfold fit. destruct (features self) as [|fs] eqn:Hf; [now left|].
  destruct (fit_features X fs []) as [fs' [ws|e]] eqn:E; [|now left].
  right. exists fs, fs', ws.
  split; [reflexivity|]. split; [exact E|].
  now destruct (fit_target_frame
                  (set_feature_widths_ (set_features self fs') (Some ws)) X y) as [-> _].
Qed.

(** ** Combination *)

Lemma np_concatenate_dense (axis : nat) (arrs : list pyarray) (out : pyarray) :
  np_concatenate axis arrs = Ok out -> issparse out = false.
Proof.
  unfold np_concatenate. destruct arrs as [|a0 arrs]; [discriminate|].
  destruct (negb _); [discriminate|].
  destruct (ndim a0 <=? axis); [discriminate|].
  destruct (negb _); [discriminate|].
  intros H; inversion H; reflexivity.
Qed.

Lemma np_hstack_dense (tup : list pyarray) (out : pyarray) :
  np_hstack tup = Ok out -> issparse out = false.
Proof.
  unfold np_hstack. destruct (map atleast_1d tup) as [|a0 arrs].
  - apply np_concatenate_dense.
  - destruct (ndim a0 =? 1); apply np_concatenate_dense.
Qed.

Lemma sparse_hstack_sparse (blocks : list pyarray) (out : pyarray) :
  sparse_hstack blocks = Ok out -> issparse out = true.
Proof.
  unfold sparse_hstack.
  destruct (map_result as_sparse_block blocks) as [[|b0 bs]|e]; simpl;
    try discriminate.
  destruct (negb _); [discriminate|].
  intros H; inversion H; reflexivity.
Qed.

Lemma stack_cases (self : DataFrameMapper) (extracted : list pyarray) (out : pyarray) :
  stack self extracted = Ok out ->
  (issparse out = true <->
     existsb issparse extracted = true /\ sparse self = Present true) /\
  (existsb issparse extracted = true -> sparse self = Present true ->
     sparse_hstack extracted = Ok out) /\
  (existsb issparse extracted = true -> sparse self = Present false ->
     exists stacked,
       sparse_hstack extracted = Ok stacked /\ issparse stacked = true /\
       out = toarray stacked) /\
  (existsb issparse extracted = false -> np_hstack extracted = Ok out).
Proof.
  unfold stack. destruct (existsb issparse extracted) eqn:Hany.
  - destruct (sparse_hstack extracted) as [stacked|e] eqn:Hs; [|discriminate].
    pose proof (sparse_hstack_sparse _ Hs) as Hsp.
    simpl. destruct (sparse self) as [|[|]]; simpl; try discriminate;
      intros H; inversion H; subst.
    + split; [split; [now split | intros _; assumption]|].
      split; [reflexivity|].
      split; [discriminate | discriminate].
    + split; [split; [discriminate | intros [_ C]; discriminate C]|].
      split; [discriminate|].
      split; [intros _ _; now exists stacked | discriminate].
  - intros H. pose proof (np_hstack_dense _ H) as Hd.
    split; [split; [congruence | intros [C _]; discriminate C]|].
    split; [discriminate|].
    split; [discriminate | intros _; exact H].
Qed.

Lemma transform_output_cases
    (self self' : DataFrameMapper) (X : table) (out : pyarray) :
  transform self X = (self', Ok out) ->
  exists fs extracted,
    features self = Present fs /\
    snd (transform_features X fs []) = Ok extracted /\
    (issparse out = true <->
       existsb issparse extracted = true /\ sparse self = Present true) /\
    (existsb issparse extracted = true -> sparse self = Present true ->
       sparse_hstack extracted = Ok out) /\
    (existsb issparse extracted = true -> sparse self = Present false ->
       exists stacked,
         sparse_hstack extracted = Ok stacked /\ issparse stacked = true /\
         out = toarray stacked) /\
    (existsb issparse extracted = false ->
       np_hstack extracted = Ok out /\ issparse out = false).
Proof.
  unfold transform. destruct (features self) as [|fs] eqn:Hf; [discriminate|].
  destruct (transform_features X fs []) as [fs' [extracted|e]] eqn:E;
    simpl; [|discriminate].
  intros H. injection H as Hself Hout.
  exists fs, extracted.
  destruct (stack_cases _ _ Hout) as [Hiff [Hsp [Hde Hnone]]].
  simpl in Hiff, Hsp, Hde.
  split; [reflexivity|]. split; [now rewrite E|].
  split; [exact Hiff|]. split; [exact Hsp|]. split; [exact Hde|].
  intros Hn. split; [now apply Hnone|].
  eapply np_hstack_dense. now apply Hnone.
Qed.

Lemma atleast_1d_matrices (n : nat) (l : list pyarray) :
  Forall (matrix_with_rows n) l -> map atleast_1d l = l.
Proof.
  induction 1 as [|a l [c Ha] _ IH]; simpl; [reflexivity|].
  rewrite IH. f_equal. unfold atleast_1d. now rewrite Ha.
Qed.

Lemma np_hstack_matrices (n : nat) (l : list pyarray) :
  l <> [] -> Forall (matrix_with_rows n) l ->
  exists d, np_hstack l = Ok (NdArray [n; list_sum (map ncols_of l)] d).
Proof.
  intros Hne Hall. unfold np_hstack. rewrite (atleast_1d_matrices Hall).
  destruct l as [|a0 l]; [contradiction|].
  pose proof (Forall_inv Hall) as [c0 H0].
  assert (Hnd : ndim a0 = 2) by (unfold ndim; now rewrite H0).
  rewrite Hnd. simpl Nat.eqb. cbv iota.
  unfold np_concatenate. rewrite Hnd.
  assert (H1 : forallb (fun a => ndim a =? 2) (a0 :: l) = true).
  { apply forallb_forall. intros a Ha.
    rewrite Forall_forall in Hall. destruct (Hall a Ha) as [c Hc].
    unfold ndim. now rewrite Hc. }
  assert (H2 : forallb (fun a => shape_eqb (remove_axis 1 (shape a))
                                           (remove_axis 1 (shape a0))) (a0 :: l) = true).
  { apply forallb_forall. intros a Ha.
    rewrite Forall_forall in Hall. destruct (Hall a Ha) as [c Hc].
    rewrite Hc, H0. unfold remove_axis; simpl. now rewrite Nat.eqb_refl. }
  rewrite H1, H2. simpl negb. cbv iota. simpl Nat.leb. cbv iota.
  rewrite H0. unfold replace_axis. simpl firstn. simpl skipn. simpl app.
  eexists. reflexivity.
Qed.

Lemma as_sparse_blocks_matrices (n : nat) (l : list pyarray) :
  Forall (matrix_with_rows n) l ->
  exists bs,
    map_result as_sparse_block l = Ok bs /\
    map shape bs = map shape l /\
    Forall (matrix_with_rows n) bs.
Proof.
  induction 1 as [|a l [c Ha] _ [bs [Hbs [Hsh Hall]]]]; simpl.
  - exists []. repeat split. constructor.
  - rewrite Hbs.
    destruct a as [s d|r c' d]; simpl in Ha.
    + subst s. simpl. exists (SpMatrix n c d :: bs).
      split; [reflexivity|]. split; [simpl; now rewrite Hsh|].
      constructor; [now exists c | assumption].
    + simpl. exists (SpMatrix r c' d :: bs).
      split; [reflexivity|]. split; [simpl; now rewrite Hsh|].
      constructor; [now exists c | assumption].
Qed.

Lemma sparse_hstack_matrices (n : nat) (l : list pyarray) :
  l <> [] -> Forall (matrix_with_rows n) l ->
  exists d, sparse_hstack l = Ok (SpMatrix n (list_sum (map ncols_of l)) d).
Proof.
  intros Hne Hall.
  destruct (as_sparse_blocks_matrices Hall) as [bs [Hbs [Hsh Hbsall]]].
  unfold sparse_hstack. rewrite Hbs. simpl bind.
  destruct bs as [|b0 bs].
  { destruct l; [contradiction | discriminate Hsh]. }
  assert (Hrows : forall b, In b (b0 :: bs) -> nrows_of b = n).
  { intros b Hb. rewrite Forall_forall in Hbsall.
    destruct (Hbsall b Hb) as [c Hc]. unfold nrows_of. now rewrite Hc. }
  assert (H1 : forallb (fun b => nrows_of b =? nrows_of b0) (b0 :: bs) = true).
  { apply forallb_forall. intros b Hb.
    rewrite (Hrows b Hb), (Hrows b0 (or_introl eq_refl)). apply Nat.eqb_refl. }
  rewrite H1. simpl negb. cbv iota.
  rewrite (Hrows b0 (or_introl eq_refl)).
  replace (map ncols_of (b0 :: bs)) with (map ncols_of l).
  - eexists. reflexivity.
  - unfold ncols_of.
    rewrite <- (map_map shape (fun s => nth 1 s 0) l).
    rewrite <- (map_map shape (fun s => nth 1 s 0) (b0 :: bs)).
    now rewrite Hsh.
Qed.

(** Blocks with two axes and the same number of rows always combine, and
    the result has as many columns as the blocks together. *)
Lemma stack_succeeds
    (self : DataFrameMapper) (extracted : list pyarray) (n : nat) (flag : bool) :
  extracted <> [] ->
  sparse self = Present flag ->
  Forall (matrix_with_rows n) extracted ->
  exists out,
    stack self extracted = Ok out /\
    shape out = [n; list_sum (map ncols_of extracted)].
Proof.
  intros Hne Hflag Hall. unfold stack.
  destruct (existsb issparse extracted).
  - destruct (sparse_hstack_matrices Hne Hall) as [d ->].
    rewrite Hflag. simpl. destruct flag; simpl; eexists; split; reflexivity.
  - destruct (np_hstack_matrices Hne Hall) as [d ->].
    eexists; split; reflexivity.
Qed.

(** C1: the output of [transform] is sparse exactly when one of the
    extracted blocks is sparse and the mapper's flag is true; with a sparse
    block and a false flag it is the sparse combination turned into a dense
    array; without a sparse block it is the dense stacking, whatever the
    flag.  The output exists whenever the blocks are matrices with the same
    number of rows, and has their columns side by side. *)
Theorem transform_sparse_iff
    (self : DataFrameMapper) (X : table)
    (fs : list feature) (extracted : list pyarray) :
  features self = Present fs ->
  snd (transform_features X fs []) = Ok extracted ->
  (forall out, snd (transform self X) = Ok out ->
     (issparse out = true <->
        existsb issparse extracted = true /\ sparse self = Present true) /\
     (existsb issparse extracted = true -> sparse self = Present true ->
        sparse_hstack extracted = Ok out) /\
     (existsb issparse extracted = true -> sparse self = Present false ->
        exists stacked,
          sparse_hstack extracted = Ok stacked /\ issparse stacked = true /\
          out = toarray stacked) /\
     (existsb issparse extracted = false ->
        np_hstack extracted = Ok out /\ issparse out = false)) /\
  (forall n flag,
     extracted <> [] ->
     Forall (matrix_with_rows n) extracted ->
     sparse self = Present flag ->
     exists out,
       snd (transform self X) = Ok out /\
       shape out = [n; list_sum (map ncols_of extracted)] /\
       issparse out = existsb issparse extracted && flag).
Proof.
  intros Hf He.
  assert (Hsnd : snd (transform self X)
                 = stack (set_features self (fst (transform_features X fs [])))
                         extracted).
  { unfold transform. rewrite Hf.
    destruct (transform_features X fs []) as [fs' r]. simpl in *. now subst r. }
  split.
  - intros out Hout.
    destruct (transform self X) as [self' r] eqn:Et. simpl in Hout. subst r.
    destruct (transform_output_cases _ _ Et)
      as [fs0 [ex0 [Hf0 [He0 Hcases]]]].
    rewrite Hf in Hf0. injection Hf0 as <-.
    rewrite He in He0. injection He0 as <-.
    exact Hcases.
  - intros n flag Hne Hall Hflag.
    destruct (@stack_succeeds
                (set_features self (fst (transform_features X fs [])))
                extracted n flag Hne Hflag Hall) as [out [Hstack Hshape]].
    exists out. rewrite Hsnd. split; [exact Hstack|]. split; [exact Hshape|].
    destruct (stack_cases _ _ Hstack) as [Hiff [_ [_ Hnone]]].
    simpl in Hiff. rewrite Hflag in Hiff.
    destruct (existsb issparse extracted) eqn:Hany; simpl.
    + destruct flag.
      * now apply Hiff.
      * destruct (issparse out); [|reflexivity].
        destruct Hiff as [Hto _]. destruct (Hto eq_refl) as [_ C]. discriminate C.
    + eapply np_hstack_dense. now apply Hnone.
Qed.

Lemma transform_sparse_iff_witness :
  let self := __init__ (FeatureList [BareColumn "age";
                                     ColumnsWith (Single "city") (OneTransformer sparsify)])
                       None true in
  exists out,
    snd (transform self (XFrame people)) = Ok out /\
    shape out = [2; 2] /\
    issparse out = true.
Proof.
  intros self.
  destruct (@transform_sparse_iff self (XFrame people)
              [(Single "age", None); (Single "city", Some sparsify)]
              [NdArray [2; 1] [30; 41]%Z; SpMatrix 2 1 [0; 2]%Z]
              eq_refl eq_refl) as [_ H].
  destruct (H 2 true) as [out [Hout [Hshape Hsp]]].
  - discriminate.
  - repeat constructor; eexists; reflexivity.
  - reflexivity.
  - exists out. split; [exact Hout|]. split; [exact Hshape | exact Hsp].
Defined.

(** ** Transforming *)



Lemma transform_feature_stable (X : table) (f : feature) :
  feature_stable f -> fst (transform_feature X f) = f.
Proof.
  unfold feature_stable, transform_feature. destruct f as [columns [t|]]; simpl.
  - intros Ht. destruct (_get_col_subset X columns) as [Xt|e]; [|reflexivity].
    specialize (Ht Xt). destruct (tr_transform t Xt) as [t' r].
    simpl in *. now subst t'.
  - intros _. destruct (_get_col_subset X columns); reflexivity.
Qed.

Lemma transform_features_stable (X : table) (fs : list feature) :
  Forall feature_stable fs ->
  forall extracted, fst (transform_features X fs extracted) = fs.
Proof.
  induction 1 as [|f fs Hf _ IH]; intros extracted; simpl; [reflexivity|].
  pose proof (@transform_feature_stable X f Hf) as Hfst.
  destruct (transform_feature X f) as [f' [fea|e]]; simpl in Hfst; subst f'.
  - specialize (IH (extracted ++ [fea])).
    destruct (transform_features X fs (extracted ++ [fea])) as [rest' r'].
    simpl in *. now subst rest'.
  - reflexivity.
Qed.

Lemma set_features_same (self : DataFrameMapper) (fs : list feature) :
  features self = Present fs -> set_features self fs = self.
Proof.
  destruct self; simpl; intros ->; reflexivity.
Qed.

(** C9: when no feature transformer changes in [transform], a call leaves
    the mapper as it was, and a second call on the same input gives the
    same outcome as the first. *)
Theorem transform_twice_same
    (self : DataFrameMapper) (X : table) (fs : list feature) :
  features self = Present fs ->
  Forall feature_stable fs ->
  fst (transform self X) = self /\
  snd (transform (fst (transform self X)) X) = snd (transform self X).
Proof.
  intros Hf Hst.
  assert (H : fst (transform self X) = self).
  { unfold transform. rewrite Hf.
    pose proof (@transform_features_stable X fs Hst []) as Hfs.
    destruct (transform_features X fs []) as [fs' r]. simpl in *. subst fs'.
    now apply set_features_same. }
  split; [exact H | now rewrite H].
Qed.

Lemma transform_twice_same_witness :
  let self := fst (fit (__init__ (FeatureList [ColumnsWith (Single "age") (OneTransformer shift);
                                               ColumnsWith (Columns ["city"])
                                                           (OneTransformer sparsify)])
                                 None true)
                       (XFrame people) YNone) in
  snd (transform (fst (transform self (XFrame people))) (XFrame people))
  = snd (transform self (XFrame people)) /\
  snd (transform self (XFrame people)) = Ok (SpMatrix 2 2 [0; 0; 11; 2]%Z).
Proof.
  intros self. split; [|reflexivity].
  refine (proj2 (@transform_twice_same self (XFrame people)
                   [(Single "age", Some (Estimator shift_ops (Some 30%Z)));
                    (Columns ["city"], Some sparsify)] eq_refl _)).
  repeat constructor; intros Xt; reflexivity.
Defined.

(** Without the assumption the two outcomes can differ. *)
Lemma transform_twice_differs_with_counter :
  let self := __init__ (FeatureList [ColumnsWith (Single "age") (OneTransformer counter)])
                       None false in
  snd (transform self (XFrame people)) = Ok (NdArray [2; 1] [30; 41]%Z) /\
  snd (transform (fst (transform self (XFrame people))) (XFrame people))
  = Ok (NdArray [2; 1] [31; 42]%Z).
Proof.
  split; reflexivity.
Qed.

(** ** Target extraction *)

Lemma target_frame_resolves (X : table) (y : target) (df : DataFrame) :
  target_frame X y = Ok df <-> resolves_target X y df.
Proof.
  split.
  - destruct y as [|d|s|]; simpl; intros H.
    + destruct X; inversion H; subst. constructor; discriminate.
    + inversion H; subst. constructor.
    + inversion H; subst. constructor.
    + destruct X; inversion H; subst. constructor; discriminate.
  - intros H. destruct H as [X d|X s|d y Hd Hs]; try reflexivity.
    destruct y as [|d'|s'|]; try reflexivity.
    + now destruct (Hd d').
    + now destruct (Hs s').
Qed.

Lemma target_frame_asserts (X : table) (y : target) :
  (forall d, y <> YFrame d) -> (forall s, y <> YSeries s) ->
  (forall df, X <> XFrame df) ->
  target_frame X y = Raise AssertionError.
Proof.
  intros Hd Hs HX. destruct y as [|d|s|]; simpl.
  - destruct X as [df| |]; try reflexivity. now destruct (HX df).
  - now destruct (Hd d).
  - now destruct (Hs s).
  - destruct X as [df| |]; try reflexivity. now destruct (HX df).
Qed.

(** C4: without a target spec [extract_y] returns [None] for [y = None]
    and raises [ValueError] for any other [y]; with a target spec it reads
    the selected columns from the resolved container, or fails the
    assertion when the fallback is not a frame, and passes them through the
    target transformer when there is one. *)
Theorem extract_y_cases (self : DataFrameMapper) (X : table) (y : target) :
  (y_feature self = Present None -> y = YNone ->
     extract_y self X y = (self, Ok None)) /\
  (y_feature self = Present None -> y <> YNone ->
     exists msg, extract_y self X y = (self, Raise (ValueError msg))) /\
  (forall y_columns y_transformers,
     y_feature self = Present (Some (y_columns, y_transformers)) ->
     (forall df, resolves_target X y df ->
        match _get_col_subset (XFrame df) y_columns, y_transformers with
        | Raise e, _ => extract_y self X y = (self, Raise e)
        | Ok yt, None => extract_y self X y = (self, Ok (Some yt))
        | Ok yt, Some t =>
            extract_y self X y
            = (set_y_feature self (Some (y_columns, Some (fst (tr_transform t yt)))),
               yt' <- snd (tr_transform t yt) ;; Ok (Some yt'))
        end) /\
     ((forall d, y <> YFrame d) -> (forall s, y <> YSeries s) ->
      (forall df, X <> XFrame df) ->
      extract_y self X y = (self, Raise AssertionError))).
Proof.
  split; [|split].
  - intros Hy ->. unfold extract_y. now rewrite Hy.
  - intros Hy Hn. unfold extract_y. rewrite Hy.
    destruct y; [contradiction| | |]; simpl; eexists; reflexivity.
  - intros y_columns y_transformers Hy. split.
    + intros df Hdf. apply target_frame_resolves in Hdf.
      unfold extract_y. rewrite Hy, Hdf.
      rewrite andb_false_r. simpl bind.
      destruct (_get_col_subset (XFrame df) y_columns) as [yt|e]; [|reflexivity].
      destruct y_transformers as [t|]; [|reflexivity].
      now destruct (tr_transform t yt).
    + intros Hd Hs HX. unfold extract_y.
      rewrite Hy, (target_frame_asserts Hd Hs HX).
      rewrite andb_false_r. reflexivity.
Qed.

Lemma extract_y_cases_witness :
  extract_y (__init__ (OneName "age") None false) (XFrame people) YNone
  = (__init__ (OneName "age") None false, Ok None) /\
  (exists msg,
     extract_y (__init__ (OneName "age") None false) (XFrame people) (YFrame people)
     = (__init__ (OneName "age") None false, Raise (ValueError msg))) /\
  snd (extract_y (__init__ (OneName "age") (Some (BareColumn "city")) false)
                 (XList []) (YSeries (mkSeries (Some "city") [4; 5; 6]%Z)))
  = Ok (Some (NdArray [3] [4; 5; 6]%Z)) /\
  snd (extract_y (__init__ (OneName "age") (Some (BareColumn "city")) false)
                 (XList []) YNone)
  = Raise AssertionError.
Proof.
  destruct (extract_y_cases (__init__ (OneName "age") None false) (XFrame people) YNone)
    as [H1 _].
  destruct (extract_y_cases (__init__ (OneName "age") None false) (XFrame people)
                            (YFrame people)) as [_ [H2 _]].
  destruct (extract_y_cases (__init__ (OneName "age") (Some (BareColumn "city")) false)
                            (XList []) (YSeries (mkSeries (Some "city") [4; 5; 6]%Z)))
    as [_ [_ H3]].
  destruct (extract_y_cases (__init__ (OneName "age") (Some (BareColumn "city")) false)
                            (XList []) YNone) as [_ [_ H4]].
  split; [exact (H1 eq_refl eq_refl)|].
  split; [apply (H2 eq_refl); discriminate|].
  split.
  - destruct (H3 (Single "city") None eq_refl) as [H3a _].
    specialize (H3a _ (target_is_series (XList []) (mkSeries (Some "city") [4; 5; 6]%Z))).
    simpl in H3a. rewrite H3a. reflexivity.
  - destruct (H4 (Single "city") None eq_refl) as [_ H4b].
    rewrite H4b; [reflexivity | discriminate | discriminate | discriminate].
Defined.

(** ** Restoring a pickled mapper *)

(** C10: [__setstate__] binds [features], with lists of transformers made
    into pipelines, and [sparse], false when the state has none; it leaves
    [feature_widths_] and [y_feature] as they were, so on the blank object a
    pickle restores into both stay missing, whatever the state holds. *)
Theorem setstate_binds_features_and_sparse
    (self : DataFrameMapper) (state : pickled_state) :
  feature_widths_ (fst (__setstate__ self state)) = feature_widths_ self /\
  y_feature (fst (__setstate__ self state)) = y_feature self /\
  feature_widths_ (fst (__setstate__ blank_object state)) = Absent /\
  y_feature (fst (__setstate__ blank_object state)) = Absent /\
  match st_features state with
  | Some entries =>
      snd (__setstate__ self state) = Ok tt /\
      features (fst (__setstate__ self state))
      = Present (map (fun e => (fst e, _build_transformer (snd e))) entries) /\
      sparse (fst (__setstate__ self state))
      = Present (match st_sparse state with Some b => b | None => false end)
  | None => __setstate__ self state = (self, Raise (KeyError "features"))
  end /\
  (forall ts, _build_transformer (TransformerList ts)
              = Some (make_transformer_pipeline ts)) /\
  (forall t, _build_transformer (OneTransformer t) = Some t) /\
  _build_transformer NoTransform = None.
Proof.
  unfold __setstate__.
  destruct (st_features state) as [entries|]; simpl; repeat split; reflexivity.
Qed.

(** A restored mapper cannot be fitted: the loop may run and set the
    widths, but reading [y_feature] raises. *)
Lemma fit_after_restore_raises (state : pickled_state) (X : table) (y : target) :
  raised (snd (fit (fst (__setstate__ blank_object state)) X y)) = true.
Proof.
  unfold __setstate__, fit.
  destruct (st_features state) as [entries|]; simpl; [|reflexivity].
  destruct (fit_features X _ []) as [fs' [ws|e]]; reflexivity.
Qed.

Lemma extract_y_after_restore_raises (state : pickled_state) (X : table) (y : target) :
  snd (extract_y (fst (__setstate__ blank_object state)) X y)
  = Raise (AttributeError "y_feature").
Proof.
  unfold __setstate__, extract_y.
  destruct (st_features state) as [entries|]; reflexivity.
Qed.

(** * Further properties *)

(** ** Column selection *)

Lemma map_result_length {A B} (f : A -> result B) (l : list A) :
  forall l', map_result f l = Ok l' -> length l' = length l.
Proof.
  induction l as [|x l IH]; intros l' H; simpl in H.
  - now inversion H.
  - destruct (f x) as [y|e]; [|discriminate]. simpl in H.
    destruct (map_result f l) as [ys|e]; [|discriminate]. simpl in H.
    inversion H; subst. simpl. now rewrite (IH ys).
Qed.

Lemma map_result_nth {A B} (f : A -> result B) (l : list A) (da : A) (db : B) :
  forall l' j, map_result f l = Ok l' -> j < length l ->
  f (nth j l da) = Ok (nth j l' db).
Proof.
  induction l as [|x l IH]; intros l' j H Hj; simpl in H, Hj; [lia|].
  destruct (f x) as [y|e] eqn:Ex; [|discriminate]. simpl in H.
  destruct (map_result f l) as [ys|e]; [|discriminate]. simpl in H.
  inversion H; subst. destruct j as [|j]; simpl; [exact Ex|].
  apply IH; [reflexivity | lia].
Qed.

Lemma map_result_raise {A B} (f : A -> result B) (l : list A) (e : exn) :
  map_result f l = Raise e -> exists x, In x l /\ f x = Raise e.
Proof.
  induction l as [|x l IH]; simpl; [discriminate|].
  destruct (f x) as [y|e0] eqn:Ex; simpl.
  - destruct (map_result f l) as [ys|e1]; simpl; [discriminate|].
    intros H. inversion H; subst.
    destruct (IH eq_refl) as [x' [Hin Hx']]. exists x'. split; [now right | exact Hx'].
  - intros H. inversion H; subst. exists x. split; [now left | exact Ex].
Qed.


Lemma get_col_subset_array (X : table) (cols : selector) (a : pyarray) :
  _get_col_subset X cols = Ok a ->
  issparse a = false /\
  shape a = match cols with
            | Single _ => [table_nrows X]
            | Columns names => [table_nrows X; length names]
            end.
Proof.
  unfold _get_col_subset.
  set (names := match cols with Single name => [name] | Columns names => names end).
  assert (Hrows : forall X1,
            match X with
            | XList rows =>
                rows1 <- map_result (fun x => record_getitem x names) rows ;;
                Ok (frame_of_records rows1)
            | XWrapper df => Ok df
            | XFrame df => Ok df
            end = Ok X1 -> df_nrows X1 = table_nrows X).
  { intros X1. destruct X as [df|rows|df]; simpl; intros H.
    - now inversion H.
    - destruct (map_result (fun x => record_getitem x names) rows) as [rows1|e] eqn:E;
        [|discriminate].
      simpl in H. inversion H; subst. simpl. now apply (map_result_length _ _ E).
    - now inversion H. }
  destruct (match X with
            | XList rows => _
            | XWrapper df => Ok df
            | XFrame df => Ok df
            end) as [X1|e]; [|discriminate].
  specialize (Hrows X1 eq_refl). simpl bind.
  destruct cols as [name|ns]; subst names; simpl.
  - unfold column_values. destruct (find_column X1 name); [|discriminate].
    simpl. intros H; inversion H; subst. simpl. now rewrite Hrows.
  - unfold columns_values. destruct (map_result (find_column X1) ns); [|discriminate].
    simpl. intros H; inversion H; subst. simpl. now rewrite Hrows.
Qed.

(** On an input the containers are modelled for, what [_get_col_subset]
    returns is a dense array with one axis for a single name and two axes
    for a list of names; the first axis is the number of rows of the input,
    the second the number of names. *)
Theorem get_col_subset_shape (X : table) (cols : selector) (a : pyarray) :
  plain_input X cols ->
  _get_col_subset X cols = Ok a ->
  issparse a = false /\
  shape a = match cols with
            | Single _ => [table_nrows X]
            | Columns names => [table_nrows X; length names]
            end.
Proof.
  intros _. apply get_col_subset_array.
Qed.

Lemma get_col_subset_shape_witness :
  exists a,
    _get_col_subset (XList [[("age", 1%Z); ("city", 2%Z)]; [("city", 5%Z); ("age", 7%Z)]])
                    (Columns ["city"; "age"]) = Ok a /\
    shape a = [2; 2].
Proof.
  exists (NdArray [2; 2] [2; 1; 5; 7]%Z). split; [reflexivity|].
  refine (proj2 (@get_col_subset_shape
                   (XList [[("age", 1%Z); ("city", 2%Z)]; [("city", 5%Z); ("age", 7%Z)]])
                   (Columns ["city"; "age"]) _ _ eq_refl)).
  split.
  - repeat constructor; simpl; intuition discriminate.
  - repeat constructor; simpl; intuition discriminate.
Defined.

(** A single name gives, once made a column vector, what the list holding
    that one name gives; the two selections also raise alike. *)
Lemma single_name_as_one_name_list (X : table) (name : string) :
  (a <- _get_col_subset X (Single name) ;; Ok (_handle_feature a))
  = _get_col_subset X (Columns [name]).
Proof.
  unfold _get_col_subset. simpl.
  destruct (match X with
            | XList rows => _
            | XWrapper df => Ok df
            | XFrame df => Ok df
            end) as [X1|e]; [|reflexivity].
  simpl. unfold column_values, columns_values. simpl.
  destruct (find_column X1 name) as [col|e]; [|reflexivity].
  simpl. rewrite handle_feature_vector. now rewrite <- flat_map_unit.
Qed.

Lemma find_column_has (df : DataFrame) (name : string) :
  match find_column df name with
  | Ok _ => has_column df name = true
  | Raise e => has_column df name = false /\ e = KeyError name
  end.
Proof.
  unfold find_column, has_column.
  induction (df_columns df) as [|c cs IH]; simpl; [now split|].
  destruct (label_is name (fst c)); simpl; [reflexivity | exact IH].
Qed.

(** On a frame, and on a wrapped frame, the selection returns exactly when
    the frame carries every selected name; otherwise it raises [KeyError]
    with a selected name the frame does not carry. *)
Lemma get_col_subset_key_error (df : DataFrame) (cols : selector) :
  _get_col_subset (XWrapper df) cols = _get_col_subset (XFrame df) cols /\
  match _get_col_subset (XFrame df) cols with
  | Ok _ => forallb (has_column df) (selected_names cols) = true
  | Raise e =>
      exists name,
        In name (selected_names cols) /\ has_column df name = false /\
        e = KeyError name
  end.
Proof.
  split; [reflexivity|].
  unfold _get_col_subset. simpl bind. destruct cols as [name|names]; simpl.
  - unfold column_values. pose proof (find_column_has df name) as H.
    destruct (find_column df name) as [col|e]; simpl.
    + now rewrite H.
    + exists name. destruct H as [H ->]. repeat split; [now left | exact H].
  - unfold columns_values.
    destruct (map_result (find_column df) names) as [cs|e] eqn:E; simpl.
    + apply forallb_forall. intros name Hin.
      destruct (In_nth _ _ "" Hin) as [j [Hj <-]].
      pose proof (@map_result_nth _ _ (find_column df) names "" [] cs j E Hj) as Hn.
      pose proof (find_column_has df (nth j names "")) as H.
      now rewrite Hn in H.
    + destruct (map_result_raise _ _ E) as [name [Hin Hr]].
      pose proof (find_column_has df name) as H. rewrite Hr in H.
      exists name. destruct H as [H ->]. repeat split; assumption.
Qed.

Lemma nth_flat_map_rows {A} (g : A -> list Z) (k : nat) (l : list A) (da : A) :
  (forall x, In x l -> length (g x) = k) ->
  forall i j, i < length l -> j < k ->
  nth (i * k + j) (flat_map g l) 0%Z = nth j (g (nth i l da)) 0%Z.
Proof.
  induction l as [|x l IH]; intros Hk i j Hi Hj; simpl in Hi; [lia|].
  pose proof (Hk x (or_introl eq_refl)) as Hx.
  simpl flat_map. destruct i as [|i].
  - simpl. rewrite app_nth1; [reflexivity | rewrite Hx; lia].
  - rewrite app_nth2 by (rewrite Hx; simpl; lia).
    rewrite Hx. replace (S i * k + j - k) with (i * k + j) by (simpl; lia).
    simpl nth. apply IH; [intros x' Hx'; apply Hk; now right | lia | lia].
Qed.

Lemma find_column_in (df : DataFrame) (name : string) (col : list Z) :
  find_column df name = Ok col -> In (LStr name, col) (df_columns df).
Proof.
  unfold find_column.
  destruct (find (fun c => label_is name (fst c)) (df_columns df)) as [[l c]|] eqn:E;
    [|discriminate].
  intros H. injection H as <-. apply find_some in E as [Hin Hl].
  simpl in Hl. destruct l as [n|z]; [|discriminate Hl].
  simpl in Hl. apply String.eqb_eq in Hl. now subst n.
Qed.

(** On a frame that carries every label once and holds exact entries,
    entry [(i, j)] of the selection by a list of names is the [i]-th value
    of the column that carries the [j]-th name: the columns come in the
    order of the names. *)
Theorem get_col_subset_entries
    (df : DataFrame) (names : list string) (a : pyarray) (i j : nat) :
  unique_labels df ->
  exact_frame df ->
  _get_col_subset (XFrame df) (Columns names) = Ok a ->
  i < df_nrows df -> j < length names ->
  exists col,
    In (LStr (nth j names ""), col) (df_columns df) /\
    find_column df (nth j names "") = Ok col /\
    item2 a i j = nth i col 0%Z.
Proof.
  intros _ _. unfold _get_col_subset. simpl bind. cbv iota. unfold columns_values.
  destruct (map_result (find_column df) names) as [cs|e] eqn:E; [|discriminate].
  simpl. intros H Hi Hj. inversion H; subst a. clear H.
  pose proof (@map_result_nth _ _ (find_column df) names "" [] cs j E Hj) as Hc.
  exists (nth j cs []). split; [now apply find_column_in|]. split; [exact Hc|].
  unfold item2. simpl.
  pose proof (map_result_length _ _ E) as Hlen.
  rewrite (@nth_flat_map_rows nat _ (length names) (seq 0 (df_nrows df)) 0).
  - rewrite seq_nth by assumption. simpl.
    rewrite (nth_indep _ 0%Z (nth i [] 0%Z)) by (rewrite length_map; lia).
    now rewrite (map_nth (fun col => nth i col 0%Z)).
  - intros x _. now rewrite length_map.
  - now rewrite length_seq.
  - assumption.
Qed.

Lemma people_is_plain : unique_labels people /\ exact_frame people.
Proof.
  split.
  - repeat constructor; simpl; intuition discriminate.
  - repeat constructor; unfold exact_value; simpl; lia.
Qed.

Lemma get_col_subset_entries_witness :
  exists col,
    In (LStr (nth 0 ["city"; "age"] ""), col) (df_columns people) /\
    find_column people (nth 0 ["city"; "age"] "") = Ok col /\
    item2 (NdArray [2; 2] [0; 30; 2; 41]%Z) 1 0 = nth 1 col 0%Z.
Proof.
  apply (@get_col_subset_entries people ["city"; "age"]
           (NdArray [2; 2] [0; 30; 2; 41]%Z) 1 0
           (proj1 people_is_plain) (proj2 people_is_plain) eq_refl); simpl; lia.
Defined.

(** ** Widths of pass-through features *)

Lemma passthrough_block (X : table) (cols : selector) (a : pyarray) :
  _get_col_subset X cols = Ok a ->
  shape (_handle_feature a) = [table_nrows X; selector_width cols] /\
  issparse (_handle_feature a) = false.
Proof.
  intros H. destruct (get_col_subset_array _ _ H) as [Hd Hs].
  destruct a as [s d|r c d]; [|discriminate Hd]. simpl in Hs. subst s.
  destruct cols as [name|names].
  - rewrite handle_feature_vector. split; reflexivity.
  - rewrite handle_feature_other by discriminate. split; reflexivity.
Qed.

Lemma fit_feature_without_transformer (X : table) (cols : selector) :
  fit_feature X (cols, None)
  = ((cols, None),
     match _get_col_subset X cols with
     | Ok _ => Ok (selector_width cols)
     | Raise e => Raise e
     end).
Proof.
  unfold fit_feature.
  destruct (_get_col_subset X cols) as [a|e] eqn:E; [|reflexivity].
  destruct (passthrough_block _ _ E) as [Hs _].
  unfold shape_at. now rewrite Hs.
Qed.

(** On an input the containers are modelled for, a feature without
    transformer fits exactly when its selection returns, and its width is
    then 1 for a single name and the number of names for a list, whatever
    the data. *)
Theorem fit_feature_passthrough (X : table) (cols : selector) :
  plain_input X cols ->
  fit_feature X (cols, None)
  = ((cols, None),
     match _get_col_subset X cols with
     | Ok _ => Ok (selector_width cols)
     | Raise e => Raise e
     end).
Proof.
  intros _. apply fit_feature_without_transformer.
Qed.

Lemma fit_feature_passthrough_witness :
  fit_feature (XFrame people) (Columns ["city"; "age"], None)
  = ((Columns ["city"; "age"], None), Ok 2).
Proof.
  exact (@fit_feature_passthrough (XFrame people) (Columns ["city"; "age"])
           (proj1 people_is_plain)).
Defined.

Lemma fit_features_cons (X : table) (f : feature) (rest : list feature) (acc : list nat) :
  fit_features X (f :: rest) acc
  = let (f', r) := fit_feature X f in
    match r with
    | Raise e => (f' :: rest, Raise e)
    | Ok w =>
        let (rest', r') := fit_features X rest (acc ++ [w]) in (f' :: rest', r')
    end.
Proof. reflexivity. Qed.

Lemma transform_features_cons
    (X : table) (f : feature) (rest : list feature) (extracted : list pyarray) :
  transform_features X (f :: rest) extracted
  = let (f', r) := transform_feature X f in
    match r with
    | Raise e => (f' :: rest, Raise e)
    | Ok fea =>
        let (rest', r') := transform_features X rest (extracted ++ [fea]) in
        (f' :: rest', r')
    end.
Proof. reflexivity. Qed.

Lemma transform_feature_passthrough (X : table) (cols : selector) :
  transform_feature X (cols, None)
  = ((cols, None), a <- _get_col_subset X cols ;; Ok (_handle_feature a)).
Proof.
  unfold transform_feature. now destruct (_get_col_subset X cols).
Qed.

Lemma passthrough_fit_features (X : table) (fs : list feature) :
  Forall (fun f => snd f = None) fs ->
  (forall f, In f fs -> exists a, _get_col_subset X (fst f) = Ok a) ->
  forall acc,
    fit_features X fs acc
    = (fs, Ok (acc ++ map (fun f => selector_width (fst f)) fs)).
Proof.
  induction 1 as [|[cols t] fs Hf _ IH]; intros Hsel acc.
  - simpl. now rewrite app_nil_r.
  - simpl in Hf. subst t. rewrite fit_features_cons, fit_feature_without_transformer.
    destruct (Hsel (cols, None) (or_introl eq_refl)) as [a Ha].
    simpl in Ha. rewrite Ha.
    rewrite IH by (intros f Hin; apply Hsel; now right).
    simpl. now rewrite <- app_assoc.
Qed.

Lemma passthrough_transform_features (X : table) (fs : list feature) :
  Forall (fun f => snd f = None) fs ->
  (forall f, In f fs -> exists a, _get_col_subset X (fst f) = Ok a) ->
  forall extracted,
  exists blocks,
    transform_features X fs extracted = (fs, Ok (extracted ++ blocks)) /\
    Forall (matrix_with_rows (table_nrows X)) blocks /\
    map ncols_of blocks = map (fun f => selector_width (fst f)) fs /\
    existsb issparse blocks = false /\
    length blocks = length fs.
Proof.
  induction 1 as [|[cols t] fs Hf _ IH]; intros Hsel extracted.
  - exists []. simpl. rewrite app_nil_r. repeat split. constructor.
  - simpl in Hf. subst t.
    destruct (Hsel (cols, None) (or_introl eq_refl)) as [a Ha].
    simpl in Ha.
    rewrite transform_features_cons, transform_feature_passthrough, Ha.
    simpl bind. cbv iota.
    destruct (passthrough_block _ _ Ha) as [Hs Hd].
    destruct (IH (fun f Hin => Hsel f (or_intror Hin)) (extracted ++ [_handle_feature a]))
      as [blocks [Ht [Hall [Hw [Hsp Hlen]]]]].
    rewrite Ht. exists (_handle_feature a :: blocks).
    split; [now rewrite <- app_assoc|].
    split; [constructor; [exists (selector_width cols); exact Hs | assumption]|].
    split; [simpl; unfold ncols_of at 1; now rewrite Hs, Hw|].
    split; [simpl; now rewrite Hd, Hsp | simpl; now rewrite Hlen].
Qed.

(** A mapper whose features have no transformer, on inputs the containers
    are modelled for: fitting on an input that carries the selected columns
    records the selector widths, and transforming any input that carries
    them returns the dense matrix with that input's rows and the sum of the
    widths as its number of columns. *)
Theorem passthrough_mapper_widths
    (self : DataFrameMapper) (X X' : table) (y : target) (fs : list feature) :
  features self = Present fs ->
  fs <> [] ->
  Forall (fun f => snd f = None) fs ->
  (forall f, In f fs -> plain_input X (fst f) /\ plain_input X' (fst f)) ->
  (forall f, In f fs -> exists a, _get_col_subset X (fst f) = Ok a) ->
  (forall f, In f fs -> exists a, _get_col_subset X' (fst f) = Ok a) ->
  let ws := map (fun f => selector_width (fst f)) fs in
  feature_widths_ (fst (fit self X y)) = Present (Some ws) /\
  exists d,
    snd (transform self X') = Ok (NdArray [table_nrows X'; list_sum ws] d).
Proof.
  intros Hf Hne Hnone _ Hsel Hsel' ws. split.
  - unfold fit. rewrite Hf, (@passthrough_fit_features X fs Hnone Hsel []).
    exact (proj1 (fit_target_frame
                    (set_feature_widths_ (set_features self fs) (Some ws)) X y)).
  - unfold transform. rewrite Hf.
    destruct (@passthrough_transform_features X' fs Hnone Hsel' [])
      as [blocks [Ht [Hall [Hw [Hsp Hlen]]]]].
    rewrite Ht. simpl. unfold stack. rewrite Hsp.
    assert (Hb : blocks <> []).
    { intros ->. destruct fs; [contradiction | discriminate Hlen]. }
    destruct (np_hstack_matrices Hb Hall) as [d Hd].
    exists d. rewrite Hd, Hw. reflexivity.
Qed.

Lemma passthrough_mapper_widths_witness :
  let self := __init__ (FeatureList [BareColumn "age";
                                     ColumnsWith (Columns ["city"; "age"]) NoTransform])
                       None false in
  feature_widths_ (fst (fit self (XFrame people) YNone)) = Present (Some [1; 2]) /\
  exists d,
    snd (transform self (XList [[("age", 1%Z); ("city", 2%Z)]]))
    = Ok (NdArray [1; 3] d).
Proof.
  intros self.
  apply (@passthrough_mapper_widths self (XFrame people)
           (XList [[("age", 1%Z); ("city", 2%Z)]]) YNone
           [(Single "age", None); (Columns ["city"; "age"], None)] eq_refl).
  - discriminate.
  - repeat constructor.
  - intros f [<-|[<-|[]]]; (split; [exact (proj1 people_is_plain)|]);
      (split; repeat constructor; simpl; intuition discriminate).
  - intros f [<-|[<-|[]]]; eexists; reflexivity.
  - intros f [<-|[<-|[]]]; eexists; reflexivity.
Defined.

(** ** Transforming before the first fit *)




(** ** Widths recorded by [fit] and columns produced by [transform] *)

Lemma shape_at_ncols (a : pyarray) (w : nat) :
  shape_at a 1 = Ok w -> ncols_of a = w /\ 2 <= ndim a.
Proof.
  unfold shape_at, ncols_of, ndim.
  destruct (shape a) as [|d0 [|d1 s]]; simpl; try discriminate.
  intros H; inversion H. split; [reflexivity | lia].
Qed.

Lemma fit_then_transform_feature (X : table) (f f' : feature) (w : nat) :
  fit_feature X f = (f', Ok w) ->
  stable_after_fit f ->
  exists b, transform_feature X f' = (f', Ok b) /\ shape_at b 1 = Ok w.
Proof.
  unfold fit_feature, stable_after_fit.
  destruct f as [cols [t|]]; simpl.
  - destruct (_get_col_subset X cols) as [Xt|e] eqn:E; [|discriminate].
    intros H Hst. specialize (Hst Xt Xt).
    destruct (tr_fit t Xt) as [t1 [u|e]]; [|discriminate]. simpl in Hst.
    destruct (tr_transform t1 Xt) as [t2 [Xt'|e]] eqn:Et; simpl in H; [|discriminate].
    simpl in Hst. subst t2. injection H as <- Hw.
    unfold transform_feature. rewrite E, Et. simpl.
    eexists. split; [reflexivity | exact Hw].
  - destruct (_get_col_subset X cols) as [Xt|e] eqn:E; [|discriminate].
    intros H _. injection H as <- Hw. unfold transform_feature. rewrite E.
    eexists. split; [reflexivity | exact Hw].
Qed.

Lemma fit_then_transform_features (X : table) (fs : list feature) :
  Forall stable_after_fit fs ->
  forall acc fs' ws extracted,
    fit_features X fs acc = (fs', Ok ws) ->
    exists blocks new,
      ws = acc ++ new /\
      transform_features X fs' extracted = (fs', Ok (extracted ++ blocks)) /\
      Forall2 (fun b w => shape_at b 1 = Ok w) blocks new.
Proof.
  induction 1 as [|f fs Hf _ IH]; intros acc fs' ws extracted H.
  - simpl in H. inversion H; subst. exists [], [].
    simpl. rewrite !app_nil_r. repeat split. constructor.
  - rewrite fit_features_cons in H.
    destruct (fit_feature X f) as [f' [w|e]] eqn:Ef; [|discriminate].
    destruct (fit_features X fs (acc ++ [w])) as [rest' r'] eqn:Er.
    inversion H; subst. clear H.
    destruct (fit_then_transform_feature _ _ Ef Hf) as [b [Hb Hw]].
    destruct (IH _ _ _ (extracted ++ [b]) Er) as [blocks [new [Hws [Ht Hall]]]].
    exists (b :: blocks), (w :: new).
    split; [now rewrite Hws, <- app_assoc|].
    split; [|now constructor].
    rewrite transform_features_cons, Hb, Ht. now rewrite <- app_assoc.
Qed.

Lemma as_sparse_blocks_ncols (blocks : list pyarray) :
  Forall (fun b => 2 <= ndim b) blocks ->
  forall bs, map_result as_sparse_block blocks = Ok bs ->
  map ncols_of bs = map ncols_of blocks.
Proof.
  induction 1 as [|b blocks Hb _ IH]; intros bs H; simpl in H.
  - now inversion H.
  - destruct (as_sparse_block b) as [b'|e] eqn:Eb; [|discriminate]. simpl in H.
    destruct (map_result as_sparse_block blocks) as [bs'|e]; [|discriminate].
    simpl in H. inversion H; subst. simpl. rewrite (IH bs' eq_refl). f_equal.
    unfold ndim in Hb.
    destruct b as [[|d0 [|d1 [|d2 s]]] d|r c d]; simpl in Hb, Eb;
      try lia; try discriminate; inversion Eb; reflexivity.
Qed.

Lemma stack_output_columns
    (self : DataFrameMapper) (blocks : list pyarray) (out : pyarray) :
  stack self blocks = Ok out ->
  Forall (fun b => 2 <= ndim b) blocks ->
  shape_at out 1 = Ok (list_sum (map ncols_of blocks)).
Proof.
  intros H Hall. unfold stack in H.
  destruct (existsb issparse blocks).
  - unfold sparse_hstack in H.
    destruct (map_result as_sparse_block blocks) as [bs|e] eqn:Ebs; [|discriminate].
    simpl in H. rewrite <- (@as_sparse_blocks_ncols blocks Hall bs Ebs).
    destruct bs as [|b0 bs]; [discriminate|].
    destruct (negb _); [discriminate|]. simpl in H.
    destruct (sparse self) as [|[|]]; simpl in H; try discriminate;
      inversion H; reflexivity.
  - unfold np_hstack in H.
    assert (Hid : map atleast_1d blocks = blocks).
    { clear H. induction Hall as [|b blocks Hb _ IH]; simpl; [reflexivity|].
      rewrite IH. f_equal. unfold atleast_1d. unfold ndim in Hb.
      destruct (shape b); [simpl in Hb; lia | reflexivity]. }
    rewrite Hid in H. destruct blocks as [|a0 rest]; [discriminate|].
    pose proof (Forall_inv Hall) as H0. cbv beta in H0.
    destruct (Nat.eqb_spec (ndim a0) 1) as [E|_]; [lia|].
    unfold np_concatenate in H.
    destruct (negb _); [discriminate|].
    destruct (ndim a0 <=? 1); [discriminate|].
    destruct (negb _); [discriminate|].
    injection H as <-. unfold shape_at, replace_axis. simpl shape.
    unfold ndim in H0.
    destruct (shape a0) as [|d0 [|d1 s]] eqn:Es; simpl in H0; try lia.
    simpl. unfold ncols_of at 1. now rewrite Es.
Qed.

(** For a mapper in which no transformer object serves two features (or a
    feature and the target spec): when the fitted transformers are not
    changed by [transform] and every block has two axes, a transform of
    the input the mapper was fitted on, if it returns, has exactly
    [sum(widths)] columns, the number [X_n_features_] reports. *)
Theorem fit_then_transform_columns
    (self self1 self2 : DataFrameMapper) (X : table) (y : target)
    (fs : list feature) (out : pyarray) :
  features self = Present fs ->
  Forall stable_after_fit fs ->
  fit self X y = (self1, Ok tt) ->
  (forall fs1 blocks,
     features self1 = Present fs1 ->
     snd (transform_features X fs1 []) = Ok blocks ->
     Forall (fun b => ndim b = 2) blocks) ->
  transform self1 X = (self2, Ok out) ->
  exists ws,
    feature_widths_ self1 = Present (Some ws) /\
    X_n_features_ self1 = Ok (Some (list_sum ws)) /\
    shape_at out 1 = Ok (list_sum ws).
Proof.
  intros Hf Hst Hfit _ Htr. unfold fit in Hfit. rewrite Hf in Hfit.
  destruct (fit_features X fs []) as [fs' [ws|e]] eqn:E; [|discriminate].
  pose proof (fit_target_frame
                (set_feature_widths_ (set_features self fs') (Some ws)) X y)
    as [Hw1 [Hf1 _]].
  rewrite Hfit in Hw1, Hf1. simpl in Hw1, Hf1.
  destruct (@fit_then_transform_features X fs Hst [] fs' ws [] E)
    as [blocks [new [Hws [Ht Hall]]]].
  simpl in Hws, Ht. subst new.
  unfold transform in Htr. rewrite Hf1, Ht in Htr. simpl in Htr.
  injection Htr as _ Hstack.
  exists ws. split; [exact Hw1|].
  split; [unfold X_n_features_; now rewrite Hw1|].
  assert (Hcols : map ncols_of blocks = ws /\ Forall (fun b => 2 <= ndim b) blocks).
  { clear -Hall. induction Hall as [|b w blocks ws Hb _ [IH1 IH2]]; [now split|].
    destruct (shape_at_ncols _ Hb) as [Hc Hn]. simpl. rewrite Hc, IH1.
    split; [reflexivity | now constructor]. }
  destruct Hcols as [Hcols Hnd].
  rewrite <- Hcols. eapply stack_output_columns; eassumption.
Qed.

Lemma fit_then_transform_columns_witness :
  let self := __init__ (FeatureList [ColumnsWith (Columns ["age"; "city"])
                                                 (OneTransformer shift);
                                     ColumnsWith (Single "city")
                                                 (OneTransformer sparsify)])
                       None false in
  exists ws,
    feature_widths_ (fst (fit self (XFrame people) YNone)) = Present (Some ws) /\
    X_n_features_ (fst (fit self (XFrame people) YNone)) = Ok (Some (list_sum ws)) /\
    shape_at (NdArray [2; 3] [0; -30; 0; 11; -28; 2]%Z) 1 = Ok (list_sum ws).
Proof.
  intros self.
  refine (@fit_then_transform_columns self _ _ (XFrame people) YNone
            [(Columns ["age"; "city"], Some shift); (Single "city", Some sparsify)]
            (NdArray [2; 3] [0; -30; 0; 11; -28; 2]%Z) eq_refl _ eq_refl _ eq_refl).
  - repeat constructor; intros Xt Xt'; reflexivity.
  - intros fs1 blocks Hf1 Hb. simpl in Hf1. injection Hf1 as <-.
    simpl in Hb. injection Hb as <-. repeat constructor.
Defined.

(** ** What the combination holds *)

Lemma flat_map_ext_in {A B} (f g : A -> list B) (l : list A) :
  (forall x, In x l -> f x = g x) -> flat_map f l = flat_map g l.
Proof.
  induction l as [|x l IH]; intros H; simpl; [reflexivity|].
  rewrite (H x (or_introl eq_refl)), IH; [reflexivity|].
  intros x' Hx'. apply H. now right.
Qed.

Lemma np_hstack_full (n : nat) (l : list pyarray) :
  l <> [] -> Forall (matrix_with_rows n) l ->
  np_hstack l = Ok (NdArray [n; list_sum (map ncols_of l)] (hstack_data n l)).
Proof.
  intros Hne Hall. unfold np_hstack. rewrite (atleast_1d_matrices Hall).
  destruct l as [|a0 l]; [contradiction|].
  pose proof (Forall_inv Hall) as [c0 H0].
  assert (Hnd : ndim a0 = 2) by (unfold ndim; now rewrite H0).
  rewrite Hnd. simpl Nat.eqb. cbv iota.
  unfold np_concatenate. rewrite Hnd.
  assert (H1 : forallb (fun a => ndim a =? 2) (a0 :: l) = true).
  { apply forallb_forall. intros a Ha.
    rewrite Forall_forall in Hall. destruct (Hall a Ha) as [c Hc].
    unfold ndim. now rewrite Hc. }
  assert (H2 : forallb (fun a => shape_eqb (remove_axis 1 (shape a))
                                           (remove_axis 1 (shape a0))) (a0 :: l) = true).
  { apply forallb_forall. intros a Ha.
    rewrite Forall_forall in Hall. destruct (Hall a Ha) as [c Hc].
    rewrite Hc, H0. unfold remove_axis; simpl. now rewrite Nat.eqb_refl. }
  rewrite H1, H2. simpl negb. cbv iota. simpl Nat.leb. cbv iota.
  rewrite H0. unfold replace_axis. simpl firstn. simpl skipn. simpl app.
  do 2 f_equal. unfold hstack_data, size_of. simpl fold_right.
  rewrite Nat.mul_1_r. apply flat_map_ext. intros i.
  apply flat_map_ext_in. intros a Ha.
  rewrite Forall_forall in Hall. destruct (Hall a Ha) as [c Hc].
  unfold ncols_of. rewrite Hc. simpl. now rewrite Nat.mul_1_r.
Qed.

Lemma as_sparse_blocks_same (n : nat) (l : list pyarray) :
  Forall (matrix_with_rows n) l ->
  exists bs,
    map_result as_sparse_block l = Ok bs /\
    map shape bs = map shape l /\
    map elements bs = map elements l.
Proof.
  induction 1 as [|a l [c Ha] _ [bs [Hbs [Hsh Hel]]]]; simpl.
  - now exists [].
  - rewrite Hbs. destruct a as [s d|r c' d]; simpl in Ha.
    + subst s. simpl. exists (SpMatrix n c d :: bs).
      split; [reflexivity|]. split; simpl; [now rewrite Hsh | now rewrite Hel].
    + simpl. exists (SpMatrix r c' d :: bs).
      split; [reflexivity|]. split; simpl; [now rewrite Hsh | now rewrite Hel].
Qed.

Lemma hstack_data_same (n : nat) (l1 l2 : list pyarray) :
  map shape l1 = map shape l2 ->
  map elements l1 = map elements l2 ->
  hstack_data n l1 = hstack_data n l2 /\ map ncols_of l1 = map ncols_of l2.
Proof.
  revert l2. induction l1 as [|a l1 IH]; intros [|b l2] Hs He; try discriminate.
  - now split.
  - simpl in Hs, He. injection Hs as Hs0 Hs. injection He as He0 He.
    destruct (IH l2 Hs He) as [Hd Hc]. split.
    + unfold hstack_data in *. apply flat_map_ext. intros i. simpl.
      unfold ncols_of at 1 3. rewrite Hs0, He0. f_equal.
      clear -Hs He. revert l2 Hs He.
      induction l1 as [|a l1 IH]; intros [|b l2] Hs He; try discriminate;
        [reflexivity|].
      simpl in Hs, He. injection Hs as Hs0 Hs. injection He as He0 He.
      simpl. unfold ncols_of at 1 3. rewrite Hs0, He0. f_equal. now apply IH.
    + simpl. unfold ncols_of at 1 3. now rewrite Hs0, Hc.
Qed.

Lemma matrices_same_shape (n : nat) (l : list pyarray) :
  Forall (matrix_with_rows n) l ->
  forall bs, map shape bs = map shape l -> Forall (matrix_with_rows n) bs.
Proof.
  induction 1 as [|a l [c Ha] _ IH]; intros [|b bs] Hs; try discriminate;
    constructor.
  - simpl in Hs. injection Hs as Hs0 _. exists c. now rewrite Hs0.
  - simpl in Hs. injection Hs as _ Hs. now apply IH.
Qed.

Lemma sparse_hstack_full (n : nat) (l : list pyarray) :
  l <> [] -> Forall (matrix_with_rows n) l ->
  sparse_hstack l = Ok (SpMatrix n (list_sum (map ncols_of l)) (hstack_data n l)).
Proof.
  intros Hne Hall.
  destruct (as_sparse_blocks_same Hall) as [bs [Hbs [Hsh Hel]]].
  destruct (hstack_data_same n _ _ Hsh Hel) as [Hd Hc].
  unfold sparse_hstack. rewrite Hbs. simpl bind.
  destruct bs as [|b0 bs].
  { destruct l; [contradiction | discriminate Hsh]. }
  assert (Hrows : forall b, In b (b0 :: bs) -> nrows_of b = n).
  { intros b Hb. pose proof (matrices_same_shape Hall _ Hsh) as Hbs'.
    rewrite Forall_forall in Hbs'. destruct (Hbs' b Hb) as [c Hsb].
    unfold nrows_of. now rewrite Hsb. }
  assert (H1 : forallb (fun b => nrows_of b =? nrows_of b0) (b0 :: bs) = true).
  { apply forallb_forall. intros b Hb.
    rewrite (Hrows b Hb), (Hrows b0 (or_introl eq_refl)). apply Nat.eqb_refl. }
  rewrite H1. simpl negb. cbv iota.
  rewrite (Hrows b0 (or_introl eq_refl)), Hc.
  do 2 f_equal. exact Hd.
Qed.

Lemma stack_of_matrices
    (self : DataFrameMapper) (blocks : list pyarray) (n : nat) (flag : bool) :
  blocks <> [] ->
  Forall (matrix_with_rows n) blocks ->
  sparse self = Present flag ->
  stack self blocks
  = Ok (if existsb issparse blocks && flag
        then SpMatrix n (list_sum (map ncols_of blocks)) (hstack_data n blocks)
        else NdArray [n; list_sum (map ncols_of blocks)] (hstack_data n blocks)).
Proof.
  intros Hne Hall Hflag. unfold stack.
  destruct (existsb issparse blocks); simpl.
  - rewrite (sparse_hstack_full Hne Hall), Hflag. simpl. now destruct flag.
  - apply (np_hstack_full Hne Hall).
Qed.

Lemma full_matrices_are_matrices (n : nat) (blocks : list pyarray) :
  Forall (full_matrix n) blocks -> Forall (matrix_with_rows n) blocks.
Proof.
  apply Forall_impl. intros a [c [Hs _]]. now exists c.
Qed.

(** The numbers in the combined matrix depend neither on the flag nor on
    which blocks are sparse: for blocks that are matrices with [n] rows and
    exact entries the output has [n] rows, the columns of all blocks, and
    the blocks' entries row by row; it is sparse when a block is sparse and
    the flag is true. *)
Theorem stack_values
    (self : DataFrameMapper) (blocks : list pyarray) (n : nat) (flag : bool) :
  blocks <> [] ->
  Forall (full_matrix n) blocks ->
  Forall exact_block blocks ->
  sparse self = Present flag ->
  stack self blocks
  = Ok (if existsb issparse blocks && flag
        then SpMatrix n (list_sum (map ncols_of blocks)) (hstack_data n blocks)
        else NdArray [n; list_sum (map ncols_of blocks)] (hstack_data n blocks)).
Proof.
  intros Hne Hfull _ Hflag.
  apply stack_of_matrices; [exact Hne | now apply full_matrices_are_matrices | exact Hflag].
Qed.

Lemma stack_values_witness :
  stack (__init__ (FeatureList []) None false)
        [NdArray [2; 1] [30; 41]%Z; SpMatrix 2 2 [1; 2; 3; 4]%Z]
  = Ok (NdArray [2; 3] [30; 1; 2; 41; 3; 4]%Z).
Proof.
  apply (@stack_values (__init__ (FeatureList []) None false)
           [NdArray [2; 1] [30; 41]%Z; SpMatrix 2 2 [1; 2; 3; 4]%Z] 2 false).
  - discriminate.
  - repeat constructor; eexists; split; reflexivity.
  - repeat constructor; unfold exact_value; simpl; lia.
  - reflexivity.
Defined.

Lemma chunk_length (n c i : nat) (d : list Z) :
  length d = n * c -> i < n -> length (chunk i c d) = c.
Proof.
  intros Hd Hi. unfold chunk. rewrite length_firstn, length_skipn, Hd.
  rewrite <- Nat.mul_sub_distr_r.
  destruct (n - i) as [|m] eqn:E; [lia|]. simpl. lia.
Qed.

Lemma chunk_nth (c i j : nat) (d : list Z) :
  j < c -> nth j (chunk i c d) 0%Z = nth (i * c + j) d 0%Z.
Proof.
  intros Hj. unfold chunk. rewrite nth_firstn.
  destruct (Nat.ltb_spec j c); [|lia]. apply nth_skipn.
Qed.

Lemma nth_flat_map_offset {A} (g : A -> list Z) (w : A -> nat) (da : A) (l : list A) :
  (forall x, In x l -> length (g x) = w x) ->
  forall k j, k < length l -> j < w (nth k l da) ->
  nth (list_sum (map w (firstn k l)) + j) (flat_map g l) 0%Z
  = nth j (g (nth k l da)) 0%Z.
Proof.
  induction l as [|x l IH]; intros Hw k j Hk Hj; simpl in Hk; [lia|].
  pose proof (Hw x (or_introl eq_refl)) as Hx.
  simpl flat_map. destruct k as [|k].
  - simpl in *. rewrite app_nth1; [reflexivity | lia].
  - change (firstn (S k) (x :: l)) with (x :: firstn k l).
    simpl map. rewrite list_sum_cons.
    rewrite app_nth2 by lia.
    replace (w x + list_sum (map w (firstn k l)) + j - length (g x))
      with (list_sum (map w (firstn k l)) + j) by lia.
    simpl nth in *. apply IH; [intros x' Hx'; apply Hw; now right | lia | exact Hj].
Qed.

Lemma block_offset_bound (blocks : list pyarray) (k : nat) (da : pyarray) :
  k < length blocks ->
  block_offset blocks k + ncols_of (nth k blocks da)
  <= list_sum (map ncols_of blocks).
Proof.
  intros Hk. unfold block_offset.
  rewrite <- firstn_map.
  rewrite <- (map_nth ncols_of).
  rewrite (nth_indep _ (ncols_of da) 0) by now rewrite length_map.
  rewrite <- list_sum_firstn_S.
  rewrite <- (firstn_all (map ncols_of blocks)) at 2.
  apply list_sum_firstn_mono. rewrite length_map. lia.
Qed.

(** For blocks with exact entries, entry [(i, j)] of block [k] is entry
    [(i, offset k + j)] of the combination, where the offset of a block is the number of columns of
    the blocks before it: the spans of the cumulative widths hold the
    blocks' own columns, unchanged and in order. *)
Theorem stack_entry
    (self : DataFrameMapper) (blocks : list pyarray) (n : nat) (flag : bool)
    (k i j : nat) :
  Forall (full_matrix n) blocks ->
  Forall exact_block blocks ->
  sparse self = Present flag ->
  k < length blocks ->
  i < n ->
  j < ncols_of (nth k blocks (NdArray [] [])) ->
  exists out,
    stack self blocks = Ok out /\
    item2 out i (block_offset blocks k + j)
    = item2 (nth k blocks (NdArray [] [])) i j.
Proof.
  intros Hfull _ Hflag Hk Hi Hj.
  assert (Hne : blocks <> []) by (intros ->; simpl in Hk; lia).
  pose proof (full_matrices_are_matrices Hfull) as Hall.
  eexists. split; [exact (@stack_of_matrices self blocks n flag Hne Hall Hflag)|].
  set (C := list_sum (map ncols_of blocks)).
  set (bk := nth k blocks (NdArray [] [])) in *.
  assert (Hitem : forall a : pyarray,
            shape a = [n; C] -> elements a = hstack_data n blocks ->
            item2 a i (block_offset blocks k + j) = item2 bk i j).
  { intros a Hsa Hea. unfold item2 at 1. rewrite Hsa, Hea.
    pose proof (@block_offset_bound blocks k (NdArray [] []) Hk) as Hb.
    fold bk C in Hb.
    assert (Hrow : forall i', In i' (seq 0 n) ->
              length (flat_map (fun b => chunk i' (ncols_of b) (elements b)) blocks) = C).
    { intros i' Hi'. apply in_seq in Hi'. subst C. clear -Hfull Hi'.
      induction Hfull as [|b blocks [c [Hs Hl]] _ IH]; simpl; [reflexivity|].
      rewrite length_app, IH. f_equal.
      unfold ncols_of. rewrite Hs. simpl. apply (@chunk_length n); [exact Hl | lia]. }
    unfold hstack_data.
    rewrite (@nth_flat_map_rows nat _ C (seq 0 n) 0 Hrow i (block_offset blocks k + j))
      by (rewrite ?length_seq; lia).
    rewrite seq_nth by assumption. simpl Nat.add.
    unfold block_offset.
    rewrite (@nth_flat_map_offset pyarray
               (fun b => chunk i (ncols_of b) (elements b)) ncols_of
               (NdArray [] []) blocks).
    - fold bk. rewrite chunk_nth by exact Hj.
      rewrite Forall_forall in Hfull.
      destruct (Hfull bk (nth_In _ _ Hk)) as [c [Hs _]].
      unfold item2, ncols_of. now rewrite Hs.
    - intros b Hb'. rewrite Forall_forall in Hfull.
      destruct (Hfull b Hb') as [c [Hs Hl]].
      unfold ncols_of. rewrite Hs. simpl. now apply (@chunk_length n).
    - exact Hk.
    - exact Hj. }
  destruct (existsb issparse blocks && flag); apply Hitem; reflexivity.
Qed.

Lemma stack_entry_witness :
  exists out,
    stack (__init__ (FeatureList []) None true)
          [NdArray [2; 1] [30; 41]%Z; SpMatrix 2 2 [1; 2; 3; 4]%Z] = Ok out /\
    item2 out 1 (1 + 1) = 4%Z.
Proof.
  destruct (@stack_entry (__init__ (FeatureList []) None true)
              [NdArray [2; 1] [30; 41]%Z; SpMatrix 2 2 [1; 2; 3; 4]%Z]
              2 true 1 1 1) as [out [Hout Hitem]].
  - repeat constructor; eexists; split; reflexivity.
  - repeat constructor; unfold exact_value; simpl; lia.
  - reflexivity.
  - simpl; lia.
  - lia.
  - unfold ncols_of; simpl; lia.
  - exists out. split; [exact Hout | exact Hitem].
Defined.

Lemma shape_eqb_eq (s t : list nat) : shape_eqb s t = true -> s = t.
Proof.
  revert t. induction s as [|x s IH]; intros [|y t] H; simpl in H;
    try discriminate; [reflexivity|].
  apply andb_prop in H as [Hx Hs].
  apply Nat.eqb_eq in Hx. subst y. f_equal. now apply IH.
Qed.

Lemma as_sparse_blocks_rows (blocks : list pyarray) :
  Forall (fun b => ndim b = 2) blocks ->
  forall bs, map_result as_sparse_block blocks = Ok bs ->
  map nrows_of bs = map nrows_of blocks.
Proof.
  induction 1 as [|b blocks Hb _ IH]; intros bs H; simpl in H.
  - now inversion H.
  - destruct (as_sparse_block b) as [b'|e] eqn:Eb; [|discriminate]. simpl in H.
    destruct (map_result as_sparse_block blocks) as [bs'|e]; [|discriminate].
    simpl in H. inversion H; subst. simpl. rewrite (IH bs' eq_refl). f_equal.
    unfold ndim in Hb.
    destruct b as [[|d0 [|d1 [|d2 s]]] d|r c d]; simpl in Hb, Eb;
      try discriminate; inversion Eb; reflexivity.
Qed.

Lemma map_eq_Forall {A B} (f : A -> B) (P : B -> Prop) (l1 l2 : list A) :
  map f l1 = map f l2 -> Forall (fun x => P (f x)) l1 -> Forall (fun x => P (f x)) l2.
Proof.
  revert l2. induction l1 as [|a l1 IH]; intros [|b l2] Hm Hall; try discriminate;
    [constructor|].
  simpl in Hm. injection Hm as H0 Hm. inversion Hall; subst.
  constructor; [now rewrite <- H0 | now apply IH].
Qed.

(** The combination never pads or cuts: when it returns for blocks with two
    axes and at least one row each, every block has as many rows as the
    output. *)
Theorem stack_same_rows
    (self : DataFrameMapper) (blocks : list pyarray) (out : pyarray) :
  stack self blocks = Ok out ->
  Forall (fun b => ndim b = 2) blocks ->
  Forall (fun b => 0 < nrows_of b) blocks ->
  blocks <> [] /\
  Forall (matrix_with_rows (nrows_of out)) blocks.
Proof.
  intros H Hall _.
  assert (Hrows : Forall (fun b => nrows_of b = nrows_of out) blocks /\ blocks <> []).
  { unfold stack in H. destruct (existsb issparse blocks).
    - unfold sparse_hstack in H.
      destruct (map_result as_sparse_block blocks) as [bs|e] eqn:Ebs; [|discriminate].
      simpl in H. pose proof (@as_sparse_blocks_rows blocks Hall _ Ebs) as Hmap.
      destruct bs as [|b0 bs]; [discriminate|].
      destruct (forallb (fun b => nrows_of b =? nrows_of b0) (b0 :: bs)) eqn:Hf;
        [|discriminate].
      simpl in H.
      assert (Hout : nrows_of out = nrows_of b0).
      { destruct (sparse self) as [|[|]]; simpl in H; try discriminate;
          inversion H; reflexivity. }
      split; [|intros ->; discriminate Hmap].
      apply (@map_eq_Forall _ _ nrows_of (fun r => r = nrows_of out) _ _ Hmap).
      apply Forall_forall. intros b Hb.
      rewrite forallb_forall in Hf. specialize (Hf b Hb).
      apply Nat.eqb_eq in Hf. now rewrite Hout.
    - unfold np_hstack in H.
      assert (Hid : map atleast_1d blocks = blocks).
      { clear H. induction Hall as [|b blocks Hb _ IH]; simpl; [reflexivity|].
        rewrite IH. f_equal. unfold atleast_1d. unfold ndim in Hb.
        destruct (shape b); [discriminate Hb | reflexivity]. }
      rewrite Hid in H. destruct blocks as [|a0 rest]; [discriminate|].
      split; [|discriminate].
      pose proof (Forall_inv Hall) as H0. cbv beta in H0.
      rewrite H0 in H. simpl Nat.eqb in H. cbv iota in H.
      unfold np_concatenate in H.
      destruct (negb _); [discriminate|].
      destruct (ndim a0 <=? 1); [discriminate|].
      destruct (forallb _ (a0 :: rest)) eqn:Hf; [|discriminate].
      simpl negb in H. cbv iota in H. injection H as <-.
      apply Forall_forall. intros a Ha.
      rewrite forallb_forall in Hf. specialize (Hf a Ha).
      apply shape_eqb_eq in Hf.
      rewrite Forall_forall in Hall. pose proof (Hall a Ha) as Hn.
      unfold ndim in H0, Hn. unfold nrows_of, replace_axis, remove_axis in *.
      simpl shape.
      destruct (shape a0) as [|r0 [|c0 [|? ?]]]; try discriminate H0.
      destruct (shape a) as [|r [|c [|? ?]]]; try discriminate Hn.
      simpl in *. now inversion Hf. }
  destruct Hrows as [Hrows Hne]. split; [exact Hne|].
  rewrite Forall_forall in *. intros b Hb.
  specialize (Hall b Hb). specialize (Hrows b Hb).
  unfold ndim, nrows_of in *.
  destruct (shape b) as [|r [|c [|? ?]]] eqn:Es; try discriminate Hall.
  exists c. unfold matrix_with_rows. rewrite Es. simpl in Hrows. now rewrite <- Hrows.
Qed.

Lemma stack_same_rows_witness :
  Forall (matrix_with_rows 2)
         [NdArray [2; 1] [30; 41]%Z; SpMatrix 2 2 [1; 2; 3; 4]%Z].
Proof.
  refine (proj2 (@stack_same_rows (__init__ (FeatureList []) None true)
                   [NdArray [2; 1] [30; 41]%Z; SpMatrix 2 2 [1; 2; 3; 4]%Z]
                   (SpMatrix 2 3 [30; 1; 2; 41; 3; 4]%Z) eq_refl _ _)).
  - repeat constructor.
  - repeat constructor; unfold nrows_of; simpl; lia.
Defined.

(** Blocks with two axes and different numbers of rows are refused. *)
Lemma stack_rows_mismatch_example :
  forall flag,
    raised (stack (__init__ (FeatureList []) None flag)
                  [NdArray [2; 1] [30; 41]%Z; NdArray [3; 1] [1; 2; 3]%Z]) = true.
Proof.
  intros [|]; reflexivity.
Qed.

(** ** What the operations leave alone *)

Lemma transform_feature_keeps_selector (X : table) (f : feature) :
  fst (fst (transform_feature X f)) = fst f /\
  is_None (snd (fst (transform_feature X f))) = is_None (snd f).
Proof.
  unfold transform_feature. destruct f as [cols [t|]]; simpl.
  - destruct (_get_col_subset X cols) as [Xt|e]; [|now split].
    destruct (tr_transform t Xt) as [t' r]. now split.
  - destruct (_get_col_subset X cols); now split.
Qed.

Lemma transform_features_keep_selectors (X : table) (fs : list feature) :
  forall extracted,
    map fst (fst (transform_features X fs extracted)) = map fst fs /\
    map (fun f => is_None (snd f)) (fst (transform_features X fs extracted))
    = map (fun f => is_None (snd f)) fs.
Proof.
  induction fs as [|f fs IH]; intros extracted; [now split|].
  rewrite transform_features_cons.
  destruct (transform_feature_keeps_selector X f) as [H1 H2].
  destruct (transform_feature X f) as [f' [fea|e]]; simpl in H1, H2.
  - destruct (IH (extracted ++ [fea])) as [IH1 IH2].
    destruct (transform_features X fs (extracted ++ [fea])) as [rest' r'].
    simpl in *. now rewrite H1, H2, IH1, IH2.
  - simpl. now rewrite H1, H2.
Qed.

(** [transform] changes nothing but the state of the feature
    transformers: the target spec, the flag and the widths stay, and so do
    the selectors of the features and which of them have a transformer,
    whether it returns or raises. *)
Theorem transform_frame (self : DataFrameMapper) (X : table) :
  y_feature (fst (transform self X)) = y_feature self /\
  sparse (fst (transform self X)) = sparse self /\
  feature_widths_ (fst (transform self X)) = feature_widths_ self /\
  match features self with
  | Absent => features (fst (transform self X)) = Absent
  | Present fs =>
      exists fs',
        features (fst (transform self X)) = Present fs' /\
        map fst fs' = map fst fs /\
        map (fun f => is_None (snd f)) fs' = map (fun f => is_None (snd f)) fs
  end.
Proof.
  unfold transform. destruct (features self) as [|fs] eqn:Hf; simpl.
  - now rewrite Hf.
  - destruct (transform_features_keep_selectors X fs []) as [H1 H2].
    destruct (transform_features X fs []) as [fs' r]. simpl in *.
    repeat split; try reflexivity. now exists fs'.
Qed.

Lemma fit_features_keep_selectors (X : table) (fs : list feature) :
  forall acc, map fst (fst (fit_features X fs acc)) = map fst fs.
Proof.
  induction fs as [|f fs IH]; intros acc; [reflexivity|].
  rewrite fit_features_cons.
  pose proof (fit_feature_selector X f) as H1.
  destruct (fit_feature X f) as [f' [w|e]]; simpl in H1.
  - specialize (IH (acc ++ [w])).
    destruct (fit_features X fs (acc ++ [w])) as [rest' r'].
    simpl in *. now rewrite H1, IH.
  - simpl. now rewrite H1.
Qed.

Lemma fit_target_keeps_selector (self : DataFrameMapper) (X : table) (y : target) :
  match y_feature self with
  | Absent => y_feature (fst (fit_target self X y)) = Absent
  | Present yf =>
      exists yf',
        y_feature (fst (fit_target self X y)) = Present yf' /\
        option_map fst yf' = option_map fst yf
  end.
Proof.
  unfold fit_target.
  destruct (y_feature self) as [|[[y_columns [t|]]|]] eqn:Hy; simpl;
    try (rewrite Hy; eexists; split; reflexivity); try exact Hy.
  - destruct (target_frame X y) as [df|e];
      [|simpl; rewrite Hy; eexists; split; reflexivity].
    destruct (_get_col_subset (XFrame df) y_columns) as [yt|e];
      [|simpl; rewrite Hy; eexists; split; reflexivity].
    destruct (tr_fit t yt) as [t' r]. simpl. eexists; split; reflexivity.
  - destruct (target_frame X y) as [df|e]; simpl; rewrite Hy;
      eexists; split; reflexivity.
Qed.

(** [fit] never touches the flag, and it keeps the selectors of the
    features and of the target spec, whether it returns or raises. *)
Theorem fit_frame (self : DataFrameMapper) (X : table) (y : target) :
  sparse (fst (fit self X y)) = sparse self /\
  match features self with
  | Absent => fit self X y = (self, Raise (AttributeError "features"))
  | Present fs =>
      exists fs',
        features (fst (fit self X y)) = Present fs' /\
        map fst fs' = map fst fs
  end /\
  match y_feature self with
  | Absent => y_feature (fst (fit self X y)) = Absent
  | Present yf =>
      exists yf',
        y_feature (fst (fit self X y)) = Present yf' /\
        option_map fst yf' = option_map fst yf
  end.
Proof.
  unfold fit. destruct (features self) as [|fs] eqn:Hf.
  - simpl. repeat split. destruct (y_feature self); [reflexivity|].
    eexists; split; reflexivity.
  - pose proof (fit_features_keep_selectors X fs []) as Hsel.
    destruct (fit_features X fs []) as [fs' [ws|e]]; simpl in Hsel.
    + destruct (fit_target_frame
                  (set_feature_widths_ (set_features self fs') (Some ws)) X y)
        as [_ [Hf' Hs']].
      split; [exact Hs'|]. split; [exists fs'; split; assumption|].
      exact (fit_target_keeps_selector
               (set_feature_widths_ (set_features self fs') (Some ws)) X y).
    + simpl. split; [reflexivity|]. split; [now exists fs'|].
      destruct (y_feature self); [reflexivity|]. eexists; split; reflexivity.
Qed.

(** [extract_y] changes nothing but the state of the target transformer;
    without one the mapper is left exactly as it was. *)
Theorem extract_y_frame (self : DataFrameMapper) (X : table) (y : target) :
  features (fst (extract_y self X y)) = features self /\
  sparse (fst (extract_y self X y)) = sparse self /\
  feature_widths_ (fst (extract_y self X y)) = feature_widths_ self /\
  match y_feature self with
  | Present (Some (y_columns, Some t)) =>
      exists t', y_feature (fst (extract_y self X y)) = Present (Some (y_columns, Some t'))
  | _ => fst (extract_y self X y) = self
  end.
Proof.
  unfold extract_y.
  destruct (y_feature self) as [|[[y_columns [t|]]|]] eqn:Hy;
    try (repeat split; reflexivity).
  - rewrite andb_false_r.
    destruct (df <- target_frame X y ;; _get_col_subset (XFrame df) y_columns)
      as [yt|e]; simpl.
    + destruct (tr_transform t yt) as [t' r]. simpl.
      repeat split. now exists t'.
    + repeat split. rewrite Hy. now exists t.
  - rewrite andb_false_r.
    destruct (df <- target_frame X y ;; _get_col_subset (XFrame df) y_columns);
      repeat split; reflexivity.
  - destruct (is_none y && is_None (@None feature)); repeat split; reflexivity.
Qed.

(** ** Refitting and the target phase of [fit] *)

(** A fit does not build on the widths of an earlier fit: the outcome is
    the same whatever widths the mapper held, and when the loop over the
    features has run to its end the whole mapper is the same. *)
Theorem fit_overwrites_widths
    (self : DataFrameMapper) (X : table) (y : target) (old : option (list nat)) :
  snd (fit (set_feature_widths_ self old) X y) = snd (fit self X y) /\
  features (fst (fit (set_feature_widths_ self old) X y))
  = features (fst (fit self X y)) /\
  (forall fs fs' ws,
     features self = Present fs ->
     fit_features X fs [] = (fs', Ok ws) ->
     fst (fit (set_feature_widths_ self old) X y) = fst (fit self X y)).
Proof.
  unfold fit. simpl features.
  destruct (features self) as [|fs] eqn:Hf.
  - repeat split. intros; discriminate.
  - destruct (fit_features X fs []) as [fs' [ws|e]] eqn:E.
    + repeat split.
    + repeat split. intros fs0 fs0' ws0 H0 H1.
      injection H0 as <-. rewrite E in H1. discriminate.
Qed.

Lemma fit_overwrites_widths_witness :
  let self := __init__ (FeatureList [BareColumn "age"; BareColumn "city"]) None false in
  fst (fit (set_feature_widths_ self (Some [5; 9; 4])) (XFrame people) YNone)
  = fst (fit self (XFrame people) YNone).
Proof.
  intros self.
  exact (proj2 (proj2 (@fit_overwrites_widths self (XFrame people) YNone (Some [5; 9; 4])))
           [(Single "age", None); (Single "city", None)]
           [(Single "age", None); (Single "city", None)] [1; 1] eq_refl eq_refl).
Defined.

(** Once the loop over the features has run to its end the new widths are
    stored, also when fitting the target raises afterwards. *)
Theorem fit_stores_widths_before_target
    (self : DataFrameMapper) (X : table) (y : target)
    (fs fs' : list feature) (ws : list nat) :
  features self = Present fs ->
  fit_features X fs [] = (fs', Ok ws) ->
  feature_widths_ (fst (fit self X y)) = Present (Some ws) /\
  features (fst (fit self X y)) = Present fs' /\
  (y_feature self = Absent ->
     snd (fit self X y) = Raise (AttributeError "y_feature")) /\
  (forall y_columns y_transformers,
     y_feature self = Present (Some (y_columns, y_transformers)) ->
     (forall d, y <> YFrame d) -> (forall s, y <> YSeries s) ->
     (forall df, X <> XFrame df) ->
     snd (fit self X y) = Raise AssertionError).
Proof.
  intros Hf Hloop. unfold fit. rewrite Hf, Hloop.
  destruct (fit_target_frame
              (set_feature_widths_ (set_features self fs') (Some ws)) X y)
    as [Hw [Hf' _]].
  split; [exact Hw|]. split; [exact Hf'|]. split.
  - intros Hy. unfold fit_target. simpl. now rewrite Hy.
  - intros y_columns y_transformers Hy Hd Hs HX.
    unfold fit_target. simpl y_feature. rewrite Hy.
    now rewrite (target_frame_asserts Hd Hs HX).
Qed.

Lemma fit_stores_widths_before_target_witness :
  let self := __init__ (OneName "age") (Some (BareColumn "city")) false in
  let X := XList [[("age", 1%Z); ("city", 2%Z)]] in
  feature_widths_ (fst (fit self X YNone)) = Present (Some [1]) /\
  snd (fit self X YNone) = Raise AssertionError.
Proof.
  intros self X.
  destruct (@fit_stores_widths_before_target self X YNone
              [(Single "age", None)] [(Single "age", None)] [1] eq_refl eq_refl)
    as [Hw [_ [_ Ha]]].
  split; [exact Hw|].
  apply (Ha (Single "city") None eq_refl); discriminate.
Defined.

(** ** Edge cases *)

(** A mapper without features can be fitted but never transforms: the
    dense stacking of no blocks raises [ValueError]. *)
Theorem transform_without_features_raises
    (self : DataFrameMapper) (X : table) (y : target) :
  features self = Present [] ->
  feature_widths_ (fst (fit self X y)) = Present (Some []) /\
  snd (transform self X)
  = Raise (ValueError "need at least one array to concatenate").
Proof.
  intros Hf. split.
  - unfold fit. rewrite Hf. simpl.
    exact (proj1 (fit_target_frame
                    (set_feature_widths_ (set_features self []) (Some [])) X y)).
  - unfold transform. rewrite Hf. reflexivity.
Qed.

Lemma transform_without_features_raises_witness :
  snd (transform (__init__ (FeatureList []) None true) (XFrame people))
  = Raise (ValueError "need at least one array to concatenate").
Proof.
  exact (proj2 (@transform_without_features_raises
                  (__init__ (FeatureList []) None true) (XFrame people) YNone eq_refl)).
Defined.

(** Before the first fit the widths are [None]: the offsets, the
    back-references and the selector array raise [TypeError] and the number
    of output columns is [None].  On an object restored by [__setstate__]
    the attribute is missing and all four raise [AttributeError]. *)
Theorem derived_attributes_before_fit
    (features0 : features_arg) (y_feature0 : option feature_arg) (sparse0 : bool)
    (state : pickled_state) :
  let fresh := __init__ features0 y_feature0 sparse0 in
  let restored := fst (__setstate__ blank_object state) in
  feature_indices_ fresh = Raise TypeError /\
  X_features_ fresh = Raise TypeError /\
  X_columns_ fresh = Raise TypeError /\
  X_n_features_ fresh = Ok None /\
  feature_indices_ restored = Raise (AttributeError "feature_widths_") /\
  X_features_ restored = Raise (AttributeError "feature_widths_") /\
  X_columns_ restored = Raise (AttributeError "feature_widths_") /\
  X_n_features_ restored = Raise (AttributeError "feature_widths_").
Proof.
  simpl. unfold __setstate__.
  destruct (st_features state); repeat split; reflexivity.
Qed.

(** A target given as a series is read under the series' name: with a
    single-name target selector and no target transformer, [extract_y]
    returns the values of the series when the names agree and raises
    [KeyError] otherwise, in particular for every unnamed series. *)
Theorem extract_y_of_series
    (self : DataFrameMapper) (X : table) (s : Series) (name : string) :
  y_feature self = Present (Some (Single name, None)) ->
  extract_y self X (YSeries s)
  = (self,
     match s_name s with
     | Some n =>
         if String.eqb n name
         then Ok (Some (NdArray [length (s_values s)] (s_values s)))
         else Raise (KeyError name)
     | None => Raise (KeyError name)
     end).
Proof.
  intros Hy. unfold extract_y. rewrite Hy. simpl.
  unfold _get_col_subset, column_values, find_column, to_frame. simpl.
  destruct (s_name s) as [n|]; simpl; [|reflexivity].
  destruct (String.eqb n name); reflexivity.
Qed.

Lemma extract_y_of_series_witness :
  snd (extract_y (__init__ (OneName "age") (Some (BareColumn "city")) false)
                 (XFrame people) (YSeries (mkSeries None [4; 5; 6]%Z)))
  = Raise (KeyError "city").
Proof.
  rewrite (@extract_y_of_series
             (__init__ (OneName "age") (Some (BareColumn "city")) false)
             (XFrame people) (mkSeries None [4; 5; 6]%Z) "city" eq_refl).
  reflexivity.
Defined.

(** ** Wrapped frames and [extract_Xy] *)

Lemma transform_features_unwrap (df : DataFrame) (fs : list feature) :
  forall extracted,
    transform_features (XWrapper df) fs extracted
    = transform_features (XFrame df) fs extracted.
Proof.
  induction fs as [|f fs IH]; intros extracted; [reflexivity|].
  rewrite !transform_features_cons.
  change (transform_feature (XWrapper df) f) with (transform_feature (XFrame df) f).
  destruct (transform_feature (XFrame df) f) as [f' [fea|e]]; [|reflexivity].
  now rewrite IH.
Qed.

Lemma fit_features_unwrap (df : DataFrame) (fs : list feature) :
  forall acc,
    fit_features (XWrapper df) fs acc = fit_features (XFrame df) fs acc.
Proof.
  induction fs as [|f fs IH]; intros acc; [reflexivity|].
  rewrite !fit_features_cons.
  change (fit_feature (XWrapper df) f) with (fit_feature (XFrame df) f).
  destruct (fit_feature (XFrame df) f) as [f' [w|e]]; [|reflexivity].
  now rewrite IH.
Qed.

(** A wrapped frame transforms like the frame it wraps, and fits like it
    when there is no target spec or the target is given as a frame or a
    series; as the fallback source of the target it is refused. *)
Theorem wrapper_is_unwrapped (self : DataFrameMapper) (df : DataFrame) (y : target) :
  transform self (XWrapper df) = transform self (XFrame df) /\
  (y_feature self = Present None ->
     fit self (XWrapper df) y = fit self (XFrame df) y) /\
  (forall y_columns y_transformers,
     y_feature self = Present (Some (y_columns, y_transformers)) ->
     (forall d, y <> YFrame d) -> (forall s, y <> YSeries s) ->
     snd (extract_y self (XWrapper df) y) = Raise AssertionError).
Proof.
  split; [|split].
  - unfold transform. destruct (features self); [reflexivity|].
    now rewrite transform_features_unwrap.
  - intros Hy. unfold fit. destruct (features self) as [|fs]; [reflexivity|].
    rewrite fit_features_unwrap.
    destruct (fit_features (XFrame df) fs []) as [fs' [ws|e]]; [|reflexivity].
    unfold fit_target. simpl y_feature. now rewrite Hy.
  - intros y_columns y_transformers Hy Hd Hs.
    unfold extract_y. rewrite Hy, andb_false_r.
    rewrite (@target_frame_asserts (XWrapper df) y Hd Hs) by discriminate.
    reflexivity.
Qed.

Lemma wrapper_is_unwrapped_witness :
  snd (extract_y (__init__ (OneName "age") (Some (BareColumn "city")) false)
                 (XWrapper people) YNone)
  = Raise AssertionError /\
  snd (extract_y (__init__ (OneName "age") (Some (BareColumn "city")) false)
                 (XFrame people) YNone)
  = Ok (Some (NdArray [2] [0; 2]%Z)).
Proof.
  split; [|reflexivity].
  apply (proj2 (proj2 (@wrapper_is_unwrapped
                         (__init__ (OneName "age") (Some (BareColumn "city")) false)
                         people YNone)) (Single "city") None eq_refl); discriminate.
Defined.

Lemma transform_keeps_y_feature (self : DataFrameMapper) (X : table) :
  y_feature (fst (transform self X)) = y_feature self.
Proof.
  unfold transform. destruct (features self) as [|fs]; [reflexivity|].
  now destruct (transform_features X fs []).
Qed.

(** [extract_Xy] transforms first: when [transform] raises, the target is
    not looked at; when it returns, the target is extracted from the mapper
    as [transform] left it.  Without target spec and without [y] the result
    is the transformed matrix paired with [None]. *)
Theorem extract_Xy_composes (self : DataFrameMapper) (X : table) (y : target) :
  (forall e, snd (transform self X) = Raise e ->
     extract_Xy self X y = (fst (transform self X), Raise e)) /\
  (forall Xt, snd (transform self X) = Ok Xt ->
     extract_Xy self X y
     = (fst (extract_y (fst (transform self X)) X y),
        yt <- snd (extract_y (fst (transform self X)) X y) ;; Ok (Xt, yt))) /\
  (y_feature self = Present None ->
     extract_Xy self X YNone
     = (fst (transform self X), Xt <- snd (transform self X) ;; Ok (Xt, None))).
Proof.
  unfold extract_Xy, extract_X.
  pose proof (transform_keeps_y_feature self X) as Hy.
  destruct (transform self X) as [self1 [Xt|e]]; simpl in *.
  - split; [intros e H; discriminate|]. split.
    + intros Xt' H. injection H as <-.
      now destruct (extract_y self1 X y).
    + intros Hnone. unfold extract_y. rewrite Hy, Hnone. reflexivity.
  - split; [intros e' H; now injection H as <-|].
    split; [intros Xt H; discriminate | reflexivity].
Qed.

Lemma extract_Xy_composes_witness :
  snd (extract_Xy (__init__ (OneName "age") None false) (XFrame people) YNone)
  = Ok (NdArray [2; 1] [30; 41]%Z, None).
Proof.
  rewrite (proj2 (proj2 (@extract_Xy_composes
                           (__init__ (OneName "age") None false) (XFrame people) YNone))
             eq_refl).
  reflexivity.
Defined.

Lemma X_features_spans_witness :
  exists rs,
    X_features_
      {| features := Present [(Single "age", None); (Columns ["city"; "age"], None)];
         y_feature := Present None; sparse := Present false;
         feature_widths_ := Present (Some [1; 2]) |} = Ok rs /\
    map fst rs = [Single "age"; Columns ["city"; "age"]; Columns ["city"; "age"]].
Proof.
  destruct (@X_features_spans
              {| features := Present [(Single "age", None); (Columns ["city"; "age"], None)];
                 y_feature := Present None; sparse := Present false;
                 feature_widths_ := Present (Some [1; 2]) |}
              [1; 2] [(Single "age", None); (Columns ["city"; "age"], None)]
              eq_refl eq_refl eq_refl) as [rs [H _]].
  exists rs. split; [exact H|].
  simpl in H. inversion H. reflexivity.
Defined.

Lemma columns_values_item
    (df : DataFrame) (names : list string) (cols : list (list Z)) (i j : nat) :
  map_result (find_column df) names = Ok cols ->
  i < df_nrows df -> j < length names ->
  item2 (NdArray [df_nrows df; length names]
           (flat_map (fun i => map (fun col => nth i col 0%Z) cols)
                     (seq 0 (df_nrows df)))) i j
  = nth i (nth j cols []) 0%Z.
Proof.
  intros E Hi Hj. unfold item2. simpl.
  pose proof (map_result_length _ _ E) as Hlen.
  rewrite (@nth_flat_map_rows nat _ (length names) (seq 0 (df_nrows df)) 0).
  - rewrite seq_nth by assumption. simpl.
    rewrite (nth_indep _ 0%Z (nth i [] 0%Z)) by (rewrite length_map; lia).
    now rewrite (map_nth (fun col => nth i col 0%Z)).
  - intros x _. now rewrite length_map.
  - now rewrite length_seq.
  - assumption.
Qed.

(** ** Lists of records *)

Lemma record_get_key (x : record) (name : string) (kv : string * Z) :
  record_get x name = Ok kv -> fst kv = name.
Proof.
  unfold record_get.
  destruct (find (fun kv => String.eqb (fst kv) name) x) as [kv'|] eqn:E;
    [|discriminate].
  intros H. inversion H; subst. apply find_some in E as [_ E].
  now apply String.eqb_eq.
Qed.

Lemma record_getitem_lookup (x : record) (names : list string) :
  forall r, record_getitem x names = Ok r ->
  forall name, In name names -> record_get r name = record_get x name.
Proof.
  unfold record_getitem.
  induction names as [|n names IH]; intros r H name Hin; [destruct Hin|].
  simpl in H. destruct (record_get x n) as [kv|e] eqn:En; [|discriminate].
  simpl in H. destruct (map_result (record_get x) names) as [r'|e]; [|discriminate].
  simpl in H. inversion H; subst. clear H.
  pose proof (record_get_key _ _ En) as Hk.
  unfold record_get at 1. simpl. rewrite Hk.
  destruct (String.eqb_spec n name) as [->|Hne]; [now rewrite En|].
  destruct Hin as [->|Hin]; [contradiction|].
  apply (IH r' eq_refl name Hin).
Qed.

Lemma frame_of_records_column (r0 : record) (rest : list record) (name : string) :
  find_column (frame_of_records (r0 :: rest)) name
  = match record_get r0 name with
    | Ok _ =>
        Ok (map (fun x => match record_get x name with
                          | Ok v => snd v
                          | Raise _ => 0%Z
                          end) (r0 :: rest))
    | Raise _ => Raise (KeyError name)
    end.
Proof.
  unfold find_column, record_get at 1, frame_of_records.
  cbv [df_columns].
  generalize (r0 :: rest) as rows. intros rows.
  induction r0 as [|kv r0 IH]; [reflexivity|].
  cbn [map find fst snd label_is].
  destruct (String.eqb_spec (fst kv) name) as [->|Hne]; [reflexivity|].
  exact IH.
Qed.

(** For a list of records that carry every key once and hold exact
    entries, and a list of names without repetition, entry [(i, j)] of the
    selection is the value record [i] holds under the [j]-th name; the
    selection raises [KeyError] as soon as a record lacks a selected name. *)
Theorem get_col_subset_of_records
    (rows : list record) (names : list string) :
  plain_input (XList rows) (Columns names) ->
  exact_records rows ->
  match _get_col_subset (XList rows) (Columns names) with
  | Ok a =>
      shape a = [length rows; length names] /\
      forall i j, i < length rows -> j < length names ->
        exists kv,
          record_get (nth i rows []) (nth j names "") = Ok kv /\
          item2 a i j = snd kv
  | Raise e =>
      exists name, In name names /\ e = KeyError name /\
        ((exists x, In x rows /\ record_get x name = Raise (KeyError name)) \/
         rows = [])
  end.
Proof.
  intros _ _.
  destruct (_get_col_subset (XList rows) (Columns names)) as [a|e] eqn:E.
  - split; [exact (proj2 (get_col_subset_array _ _ E))|].
    intros i j Hi Hj. unfold _get_col_subset in E.
    destruct (map_result (fun x => record_getitem x names) rows) as [rows1|e] eqn:E1;
      [|discriminate].
    cbn [bind] in E. unfold columns_values in E.
    destruct (map_result (find_column (frame_of_records rows1)) names)
      as [cols|e] eqn:E2; [|discriminate].
    cbn [bind] in E. injection E as <-.
    pose proof (map_result_length _ _ E1) as Hl1.
    pose proof (@map_result_nth _ _ _ rows [] [] rows1 i E1 Hi) as Hrow.
    cbv beta in Hrow.
    pose proof (@map_result_nth _ _ _ names "" [] cols j E2 Hj) as Hcol.
    assert (Hin : In (nth j names "") names) by now apply nth_In.
    pose proof (record_getitem_lookup _ _ Hrow _ Hin) as Hsame.
    change (length rows1) with (df_nrows (frame_of_records rows1)).
    rewrite (@columns_values_item (frame_of_records rows1) names cols i j E2)
      by (simpl; lia).
    destruct rows1 as [|r0 rest]; [simpl in Hl1; lia|].
    rewrite frame_of_records_column in Hcol.
    destruct (record_get r0 (nth j names "")) as [kv0|e0]; [|discriminate].
    injection Hcol as Hcol.
    rewrite <- Hcol.
    set (g := fun x : record =>
                match record_get x (nth j names "") with
                | Ok v => snd v
                | Raise _ => 0%Z
                end).
    rewrite (nth_indep _ 0%Z (g []))
      by (simpl; rewrite ?length_map; simpl in Hl1; lia).
    change (match record_get r0 (nth j names "") with
            | Ok v => snd v
            | Raise _ => 0%Z
            end :: map g rest) with (map g (r0 :: rest)).
    rewrite (map_nth g). unfold g. unfold record in *. rewrite Hsame.
    assert (Hget : exists kv, record_get (nth i rows []) (nth j names "") = Ok kv).
    { unfold record_getitem in Hrow.
      pose proof (@map_result_nth _ _ _ names "" ("", 0%Z) _ j Hrow Hj) as Hk.
      eexists; exact Hk. }
    destruct Hget as [kv Hkv]. exists kv. split; [exact Hkv | now rewrite Hkv].
  - unfold _get_col_subset in E.
    destruct (map_result (fun x => record_getitem x names) rows) as [rows1|e1] eqn:E1.
    + simpl in E. unfold columns_values in E.
      destruct (map_result (find_column (frame_of_records rows1)) names)
        as [cols|e2] eqn:E2; [discriminate|].
      simpl in E. injection E as <-.
      destruct (map_result_raise _ _ E2) as [name [Hin Hr]].
      exists name. split; [exact Hin|].
      destruct rows1 as [|r0 rest].
      * destruct rows; [|simpl in E1;
          destruct (record_getitem r names); [|discriminate]; simpl in E1;
          destruct (map_result (fun x => record_getitem x names) rows); discriminate].
        unfold find_column in Hr. simpl in Hr. injection Hr as <-.
        split; [reflexivity | now right].
      * exfalso. rewrite frame_of_records_column in Hr.
        destruct rows as [|x0 rows]; [discriminate E1|].
        pose proof (@map_result_nth _ _ (fun x => record_getitem x names)
                      (x0 :: rows) [] [] (r0 :: rest) 0 E1) as H0.
        simpl in H0. specialize (H0 (Nat.lt_0_succ _)).
        pose proof (record_getitem_lookup _ _ H0 _ Hin) as Hsame.
        rewrite Hsame in Hr.
        destruct (In_nth _ _ "" Hin) as [j [Hj Hnj]].
        unfold record_getitem in H0.
        pose proof (@map_result_nth _ _ _ names "" ("", 0%Z) _ j H0 Hj) as Hk.
        rewrite Hnj in Hk. rewrite Hk in Hr. discriminate.
    + simpl in E. injection E as <-.
      destruct (map_result_raise _ _ E1) as [x [Hx Hr]].
      unfold record_getitem in Hr.
      destruct (map_result_raise _ _ Hr) as [name [Hin Hn]].
      unfold record_get in Hn.
      destruct (find (fun kv => String.eqb (fst kv) name) x) eqn:Ef; [discriminate|].
      injection Hn as <-.
      exists name. split; [exact Hin|]. split; [reflexivity|]. left.
      exists x. split; [exact Hx|]. unfold record_get. now rewrite Ef.
Qed.

Lemma get_col_subset_of_records_witness :
  exists kv,
    record_get (nth 1 [[("age", 1%Z); ("city", 2%Z)]; [("city", 5%Z); ("age", 7%Z)]] [])
               (nth 0 ["city"; "age"] "") = Ok kv /\
    item2 (NdArray [2; 2] [2; 1; 5; 7]%Z) 1 0 = snd kv.
Proof.
  assert (Hplain : plain_input
                     (XList [[("age", 1%Z); ("city", 2%Z)]; [("city", 5%Z); ("age", 7%Z)]])
                     (Columns ["city"; "age"])).
  { split; repeat constructor; simpl; intuition discriminate. }
  assert (Hexact : exact_records
                     [[("age", 1%Z); ("city", 2%Z)]; [("city", 5%Z); ("age", 7%Z)]]).
  { repeat constructor; unfold exact_value; simpl; lia. }
  pose proof (@get_col_subset_of_records
                [[("age", 1%Z); ("city", 2%Z)]; [("city", 5%Z); ("age", 7%Z)]]
                ["city"; "age"] Hplain Hexact) as H.
  assert (E : _get_col_subset
                (XList [[("age", 1%Z); ("city", 2%Z)]; [("city", 5%Z); ("age", 7%Z)]])
                (Columns ["city"; "age"]) = Ok (NdArray [2; 2] [2; 1; 5; 7]%Z))
    by reflexivity.
  rewrite E in H. destruct H as [_ H].
  apply (H 1 0); simpl; lia.
Defined.
